(** * AsyncProtocol: session machinery of [python/qemu/aqmp/protocol.py]

    A shallow embedding of the session manager and of [util.flush].
    Coroutines are state transformers over the protocol object; every
    [await] on something the module does not implement itself (the
    stream, the queue, the event loop) takes its outcome from an
    explicit argument, so each function can be run on concrete inputs.

    A coroutine runs from one suspension point to the next without
    interleaving: while the disconnect task waits in [join] or in
    [asyncio.wait], the task it waits for runs to its own next
    suspension point.  A cancellation of the caller of [disconnect]
    itself is outside the model. *)

From Stdlib Require Import List String Bool Arith Lia.
From stdpp Require gmap strings.
Import ListNotations.

(** * The autodoc option switch of [python/docs/autoconf.py] *)

Module Autoconf.
Import stdpp.base stdpp.gmap stdpp.strings.

(** The values an option can hold, as far as the module tells them
    apart: [True], a string, anything else. *)
Inductive pyvalue : Type :=
| PyTrue
| PyStr (s : string)
| PyOther (n : nat).

(** The marker the cache stores for a key that was absent. *)
Definition DELETEME : pyvalue := PyStr "__DELETEME__".

(** [cache[key] == '__DELETEME__'] *)
Definition is_DELETEME (v : pyvalue) : bool :=
  match v with
  | PyStr s => String.eqb s "__DELETEME__"
  | _ => false
  end.

(** [changed_options_cache], keyed by [id(options)], and the options
    object together with its identity. *)
Record state : Type := mkState {
  changed_options_cache : gmap nat (gmap string pyvalue);
  opt_id : nat;
  options : gmap string pyvalue
}.

(** [change_option(name, options, key, value)] *)
Definition change_option (key : string) (value : pyvalue) (st : state)
  : state :=
  let cache := default ∅ (changed_options_cache st !! opt_id st) in
  let cache' :=
    match cache !! key with
    | Some _ => cache
    | None =>
        match options st !! key with
        | Some v => <[key := v]> cache
        | None => <[key := DELETEME]> cache
        end
    end in
  mkState (<[opt_id st := cache']> (changed_options_cache st))
          (opt_id st)
          (<[key := value]> (options st)).

(** [restore_option(name, options, key)] *)
Definition restore_option (key : string) (st : state) : state :=
  let cache := default ∅ (changed_options_cache st !! opt_id st) in
  match cache !! key with
  | Some v =>
      if is_DELETEME v
      then mkState (changed_options_cache st) (opt_id st)
                   (delete key (options st))
      else mkState (changed_options_cache st) (opt_id st)
                   (<[key := v]> (options st))
  | None => st
  end.

(** What [autodoc_process_docstring] reads of the documented object:
    [obj.fget.__module__] of a property, and [obj.__module__] where
    the object has one. *)
Record pyobj : Type := mkObj {
  fget_module : string;
  obj_module : option string
}.

(** [name.startswith(p)] *)
Definition startswith (name p : string) : bool := String.prefix p name.

(** [autodoc_process_docstring(app, what, name, obj, options, lines)] *)
Definition autodoc_process_docstring
           (what name : string) (obj : pyobj) (st : state) : state :=
  let st1 :=
    if String.eqb name "qemu.aqmp.QMPClient" ||
       String.eqb name "qemu.aqmp.qmp_client.QMPClient"
    then change_option "inherited-members" PyTrue st
    else restore_option "inherited-members" st in
  if negb (startswith name "qemu.aqmp.QMPClient." ||
           startswith name "qemu.aqmp.qmp_client.QMPClient.")
  then restore_option "noindex" st1
  else
    let modify_noindex1 :=
      if String.eqb what "property"
      then negb (startswith name (fget_module obj))
      else false in
    let modify_noindex2 :=
      if String.eqb what "class" || String.eqb what "exception" ||
         String.eqb what "function" || String.eqb what "method"
      then match obj_module obj with
           | Some m => if negb (startswith name m) then true
                       else modify_noindex1
           | None => modify_noindex1
           end
      else modify_noindex1 in
    if modify_noindex2
    then change_option "noindex" PyTrue st1
    else restore_option "noindex" st1.

(** The cache entry of the options object of [st] for [key]. *)
Definition cached (key : string) (st : state) : option pyvalue :=
  default ∅ (changed_options_cache st !! opt_id st) !! key.

(** The two names under which the class is documented. *)
Definition is_client (name : string) : bool :=
  String.eqb name "qemu.aqmp.QMPClient" ||
  String.eqb name "qemu.aqmp.qmp_client.QMPClient".

(** Names of members of the class. *)
Definition is_client_member (name : string) : bool :=
  startswith name "qemu.aqmp.QMPClient." ||
  startswith name "qemu.aqmp.qmp_client.QMPClient.".

(** An options object the switch has never seen, with two options set. *)
Definition fresh_options : state :=
  mkState ∅ 7 (<["members" := PyOther 1]> (<["noindex" := PyOther 0]> ∅)).

(** An options object whose [inherited-members] is the marker string. *)
Definition marker_options : state :=
  mkState ∅ 7 (<["inherited-members" := DELETEME]> ∅).

(** A method of the protocol base class. *)
Definition protocol_method : pyobj :=
  mkObj "" (Some "qemu.aqmp.protocol").

End Autoconf.

(** ** Exceptions *)

(** The three classes the module distinguishes with [isinstance]:
    [asyncio.CancelledError], subclasses of [Exception], and the
    remaining [BaseException]s (KeyboardInterrupt, SystemExit, ...). *)
Inductive exc_class : Type :=
| CancelledError
| ExceptionClass
| BaseExceptionClass.

(** An exception object.  [Exn i c] is the object with identity [i]
    raised by the environment; [ConnectError] and [AssertionError] are
    the ones the module itself constructs, [ValueError] the one a
    transport raises on inverted limits. *)
Inductive exn : Type :=
| Exn (ident : nat) (cls : exc_class)
| ConnectError (error_message : string) (exc : exn)
| AssertionError
| ValueError.

Definition exc_class_eqb (a b : exc_class) : bool :=
  match a, b with
  | CancelledError, CancelledError
  | ExceptionClass, ExceptionClass
  | BaseExceptionClass, BaseExceptionClass => true
  | _, _ => false
  end.

(** Object identity, Python's [is]. *)
Fixpoint exn_is (a b : exn) : bool :=
  match a, b with
  | Exn i c, Exn j d => Nat.eqb i j && exc_class_eqb c d
  | ConnectError m e, ConnectError n f => String.eqb m n && exn_is e f
  | AssertionError, AssertionError => true
  | ValueError, ValueError => true
  | _, _ => false
  end.

(** [isinstance(err, asyncio.CancelledError)] *)
Definition is_CancelledError (e : exn) : bool :=
  match e with
  | Exn _ CancelledError => true
  | _ => false
  end.

(** [isinstance(err, Exception)]; since Python 3.8 a [CancelledError]
    is not one. *)
Definition is_Exception (e : exn) : bool :=
  match e with
  | Exn _ ExceptionClass => true
  | Exn _ _ => false
  | ConnectError _ _ => true
  | AssertionError => true
  | ValueError => true
  end.

(** ** Futures and tasks *)

(** Which coroutine a task runs. *)
Inductive coro : Type :=
| ReaderCoro
| WriterCoro
| GatherFuture
| DisconnectCoro.

(** [Finished None] is a normal return, [Finished (Some e)] a task that
    ended by raising [e]. *)
Inductive fut_state : Type :=
| Pending
| Finished (result : option exn).

Record Future : Type := mkFuture {
  fut_id : nat;
  fut_coro : coro;
  fut_state_of : fut_state
}.

(** [task.done()] *)
Definition done (t : Future) : bool :=
  match fut_state_of t with
  | Pending => false
  | Finished _ => true
  end.

(** [task.exception()] of a task that is done. *)
Definition exception (t : Future) : option exn :=
  match fut_state_of t with
  | Pending => None
  | Finished r => r
  end.

Definition set_state (st : fut_state) (t : Future) : Future :=
  mkFuture (fut_id t) (fut_coro t) st.

(** ** The stream writer and its transport *)

(** The write transport as far as [flush] and [_bh_disconnect] use it:
    the flow-control limits, the bytes still buffered, and whether
    [close] was called. *)
Record StreamWriter : Type := mkWriter {
  limit_low : nat;
  limit_high : nat;
  buffered : nat;
  closing : bool;
  limits_log : list (nat * nat)
}.

(** [transport.get_write_buffer_limits()] returns [(low, high)]. *)
Definition get_write_buffer_limits (w : StreamWriter) : nat * nat :=
  (limit_low w, limit_high w).

(** [transport.set_write_buffer_limits(high, low)]: the first
    positional argument is the high-water mark.  asyncio raises
    [ValueError] unless [high >= low >= 0]; the writer is then left
    unchanged. *)
Definition set_write_buffer_limits (high low : nat) (w : StreamWriter)
  : option StreamWriter :=
  if Nat.leb low high
  then Some (mkWriter low high (buffered w) (closing w)
                      (limits_log w ++ [(high, low)]))
  else None.

(** Outcome of one [await]: it returns, or an exception is raised at
    the suspension point. *)
Inductive awaited : Type :=
| Returned
| Raised (e : exn).

(** [await writer.drain()] returns once the buffer is at or below the
    low-water mark.  A returning drain therefore empties the buffer
    down to [limit_low]; a raising one leaves it alone. *)
Definition drain (o : awaited) (w : StreamWriter) : StreamWriter * awaited :=
  match o with
  | Returned =>
      (mkWriter (limit_low w) (limit_high w)
                (Nat.min (buffered w) (limit_low w)) (closing w)
                (limits_log w), Returned)
  | Raised e => (w, Raised e)
  end.

(** [util.flush]. The transport always accepts [(0, 0)], and the
    [finally] clause runs on both exits of the drain. *)
Definition flush (o : awaited) (w : StreamWriter) : StreamWriter * awaited :=
  let '(low, high) := get_write_buffer_limits w in
  match set_write_buffer_limits 0 0 w with
  | None => (w, Raised ValueError)
  | Some w1 =>
      let '(w2, r) := drain o w1 in
      match set_write_buffer_limits high low w2 with
      | Some w3 => (w3, r)
      | None => (w2, Raised ValueError)
      end
  end.

(** ** Results of coroutines *)

(** A call returns a value, raises, or is still parked at an [await]
    whose awaited object has not completed. *)
Inductive result (A : Type) : Type :=
| Ok (a : A)
| Raise (e : exn)
| Suspended.
Arguments Ok {A} a.
Arguments Raise {A} e.
Arguments Suspended {A}.

(** * Debugging helpers of [python/qemu/aqmp/util.py] *)

Module Util.

(** The line feed. *)
Definition nl : Ascii.ascii := Ascii.ascii_of_nat 10.

(** [s.split(nl)]: the pieces between line feeds, one more than
    there are line feeds. *)
Fixpoint split_nl (s : string) : list string :=
  match s with
  | EmptyString => [EmptyString]
  | String c rest =>
      if Ascii.eqb c nl then EmptyString :: split_nl rest
      else match split_nl rest with
           | hd :: tl => String c hd :: tl
           | [] => [String c EmptyString]
           end
  end.

(** [nl.join(l)] *)
Definition join_nl (l : list string) : string :=
  String.concat (String nl EmptyString) l.

(** [pretty_traceback(prefix)]; [output] is the formatted traceback
    the function obtains from [traceback.format_exception]. *)
Definition pretty_traceback (output prefix : string) : string :=
  let exc_lines :=
    map (fun line => String.append prefix line) (split_nl output) in
  join_nl (removelast exc_lines).

(** A string without a line feed. *)
Fixpoint one_line (s : string) : bool :=
  match s with
  | EmptyString => true
  | String c rest => negb (Ascii.eqb c nl) && one_line rest
  end.

(** A frame object and its current line. *)
Record frame : Type := mkFrame { frame_id : nat; f_lineno : nat }.

(** The objects [walk_awaitable] tells apart: a generator with its
    [gi_frame] ([None] once it has finished) and [gi_yieldfrom], a
    coroutine with its [cr_frame] ([None] once it is closed) and
    [cr_await], an [asyncio.Task] with the coroutine it wraps, and
    anything else (a plain future, say). *)
Inductive pyobject : Type :=
| GeneratorObj (gi_frame : option frame) (gi_yieldfrom : option pyobject)
| CoroutineObj (cr_frame : option frame) (cr_await : option pyobject)
| TaskObj (coro : pyobject)
| OtherObj.

(** The [while obj is not None] loop of [walk_awaitable]: the pairs
    it yields, and whether it ended in the [AttributeError] of
    reading [f_lineno] off the missing frame of a finished
    generator. *)
Fixpoint walk (obj : pyobject) : list (frame * nat) * bool :=
  match obj with
  | GeneratorObj None _ => ([], true)
  | GeneratorObj (Some f) y =>
      let '(rest, err) :=
        match y with Some o => walk o | None => ([], false) end in
      ((f, f_lineno f) :: rest, err)
  | CoroutineObj None _ => ([], false)
  | CoroutineObj (Some f) a =>
      let '(rest, err) :=
        match a with Some o => walk o | None => ([], false) end in
      ((f, f_lineno f) :: rest, err)
  | TaskObj _ => ([], false)
  | OtherObj => ([], false)
  end.

(** [walk_awaitable(obj)]: a task is replaced by its coroutine, once,
    before the loop. *)
Definition walk_awaitable (obj : option pyobject)
  : list (frame * nat) * bool :=
  match obj with
  | Some (TaskObj c) => walk c
  | Some o => walk o
  | None => ([], false)
  end.

(** Coroutines with the frames [fs], each awaiting the next, the
    innermost awaiting [inner]. *)
Fixpoint await_chain (fs : list frame) (inner : option pyobject)
  : option pyobject :=
  match fs with
  | [] => inner
  | f :: rest => Some (CoroutineObj (Some f) (await_chain rest inner))
  end.

(** Where [walk] stops: nothing awaited, a task, another object, or a
    closed coroutine. *)
Definition stops (inner : option pyobject) : bool :=
  match inner with
  | None => true
  | Some (TaskObj _) => true
  | Some OtherObj => true
  | Some (CoroutineObj None _) => true
  | Some _ => false
  end.

End Util.

(** * The event calls of [python/qemu/aqmp/sync_qmp.py] *)

Module SyncQMP.
Section Events.

(** The event messages. *)
Variable Msg : Type.

(** [self._aqmp.events.get()] under [asyncio.wait_for(..., timeout)],
    run to completion: given the timeout and the queue, the queue
    afterwards and the event, the exception, or no return at all. *)
Variable events_get : option nat -> list Msg -> list Msg * result Msg.

(** The [wait] argument, [Union[bool, float]]. *)
Inductive wait_arg : Type :=
| WaitBool (b : bool)
| WaitFloat (t : nat).

(** [queue.get_nowait()]; [None] stands for [QueueEmpty]. *)
Definition get_nowait (q : list Msg) : list Msg * option Msg :=
  match q with
  | [] => (q, None)
  | m :: rest => (rest, Some m)
  end.

(** [pull_event] *)
Definition pull_event (wait : wait_arg) (q : list Msg)
  : list Msg * result (option Msg) :=
  let blocking (timeout : option nat) :=
    match events_get timeout q with
    | (q', Ok m) => (q', Ok (Some m))
    | (q', Raise e) => (q', Raise e)
    | (q', Suspended) => (q', Suspended)
    end in
  match wait with
  | WaitBool false =>
      match q with
      | [] => (q, Ok None)
      | _ => blocking None
      end
  | WaitBool true => blocking None
  | WaitFloat t => blocking (Some t)
  end.

(** The [while True] loop of [get_events]; it ends at [QueueEmpty]. *)
Fixpoint drain_events (fuel : nat) (q events : list Msg)
  : list Msg * list Msg :=
  match fuel with
  | 0 => (q, events)
  | S n =>
      match get_nowait q with
      | (q', Some m) => drain_events n q' (events ++ [m])
      | (q', None) => (q', events)
      end
  end.

(** [get_events] *)
Definition get_events (wait : wait_arg) (q : list Msg)
  : list Msg * result (list Msg) :=
  let '(q1, events) := drain_events (S (List.length q)) q [] in
  match events with
  | _ :: _ => (q1, Ok events)
  | [] =>
      match pull_event wait q1 with
      | (q2, Ok (Some event)) => (q2, Ok [event])
      | (q2, Ok None) => (q2, Ok [])
      | (q2, Raise e) => (q2, Raise e)
      | (q2, Suspended) => (q2, Suspended)
      end
  end.

End Events.
End SyncQMP.

(** ** The outgoing queue *)

Section Protocol.

(** The message type, [Generic[T]]. *)
Variable T : Type.

(** An [asyncio.Queue]: the items not yet taken by [get], and the
    count of items put but not yet marked with [task_done]; [join]
    waits for that count to reach zero. *)
Record Queue : Type := mkQueue {
  items : list T;
  unfinished_tasks : nat
}.

Definition empty_queue : Queue := mkQueue [] 0.


Definition task_done (q : Queue) : Queue :=
  mkQueue (items q) (pred (unfinished_tasks q)).

(** ** The protocol object *)

(** What the session did, in order; a ghost log next to the fields. *)
Inductive event : Type :=
| EvOpenConnection
| EvCreateTask (c : coro) (id : nat)
| EvGet (m : T)
| EvSend (m : T)
| EvTaskDone
| EvJoin
| EvFlush
| EvCancel (c : coro)
| EvWait (c : coro)
| EvClose
| EvWaitClosed
| EvCleanup.

Record AsyncProtocol : Type := mkProto {
  _reader : option unit;
  _writer : option StreamWriter;
  _outgoing : Queue;
  _reader_task : option Future;
  _writer_task : option Future;
  _bh_tasks : option Future;
  _dc_task : option Future;
  next_id : nat;
  trace : list event
}.

(** [AsyncProtocol.__init__] *)
Definition init : AsyncProtocol :=
  mkProto None None empty_queue None None None None 0 [].

Definition set_reader v s :=
  mkProto v (_writer s) (_outgoing s) (_reader_task s) (_writer_task s)
          (_bh_tasks s) (_dc_task s) (next_id s) (trace s).
Definition set_writer v s :=
  mkProto (_reader s) v (_outgoing s) (_reader_task s) (_writer_task s)
          (_bh_tasks s) (_dc_task s) (next_id s) (trace s).
Definition set_outgoing v s :=
  mkProto (_reader s) (_writer s) v (_reader_task s) (_writer_task s)
          (_bh_tasks s) (_dc_task s) (next_id s) (trace s).
Definition set_reader_task v s :=
  mkProto (_reader s) (_writer s) (_outgoing s) v (_writer_task s)
          (_bh_tasks s) (_dc_task s) (next_id s) (trace s).
Definition set_writer_task v s :=
  mkProto (_reader s) (_writer s) (_outgoing s) (_reader_task s) v
          (_bh_tasks s) (_dc_task s) (next_id s) (trace s).
Definition set_bh_tasks v s :=
  mkProto (_reader s) (_writer s) (_outgoing s) (_reader_task s)
          (_writer_task s) v (_dc_task s) (next_id s) (trace s).
Definition set_dc_task v s :=
  mkProto (_reader s) (_writer s) (_outgoing s) (_reader_task s)
          (_writer_task s) (_bh_tasks s) v (next_id s) (trace s).
Definition set_next_id v s :=
  mkProto (_reader s) (_writer s) (_outgoing s) (_reader_task s)
          (_writer_task s) (_bh_tasks s) (_dc_task s) v (trace s).
Definition log (e : event) s :=
  mkProto (_reader s) (_writer s) (_outgoing s) (_reader_task s)
          (_writer_task s) (_bh_tasks s) (_dc_task s) (next_id s)
          (trace s ++ [e]).

(** ** Coroutines as state transformers *)

Definition M (A : Type) : Type := AsyncProtocol -> AsyncProtocol * result A.

Definition ret {A} (a : A) : M A := fun s => (s, Ok a).
Definition raise {A} (e : exn) : M A := fun s => (s, Raise e).
Definition suspend {A} : M A := fun s => (s, Suspended).
Definition bind {A B} (m : M A) (k : A -> M B) : M B :=
  fun s =>
    match m s with
    | (s1, Ok a) => k a s1
    | (s1, Raise e) => (s1, Raise e)
    | (s1, Suspended) => (s1, Suspended)
    end.
Definition gets {A} (f : AsyncProtocol -> A) : M A := fun s => (s, Ok (f s)).
Definition modify (f : AsyncProtocol -> AsyncProtocol) : M unit :=
  fun s => (f s, Ok tt).

(** [try: body finally: fin] -- [fin] runs when [body] returns or
    raises; an exception of [fin] replaces the one of [body]. *)
Definition try_finally {A} (body : M A) (fin : M unit) : M A :=
  fun s =>
    match body s with
    | (s1, Ok a) =>
        match fin s1 with
        | (s2, Ok _) => (s2, Ok a)
        | (s2, Raise e) => (s2, Raise e)
        | (s2, Suspended) => (s2, Suspended)
        end
    | (s1, Raise e) =>
        match fin s1 with
        | (s2, Ok _) => (s2, Raise e)
        | (s2, Raise e') => (s2, Raise e')
        | (s2, Suspended) => (s2, Suspended)
        end
    | (s1, Suspended) => (s1, Suspended)
    end.

(** [try: body except <filter> as err: handler(err)] *)
Definition try_except {A} (body : M A) (filter : exn -> bool)
           (handler : exn -> M A) : M A :=
  fun s =>
    match body s with
    | (s1, Raise e) => if filter e then handler e s1 else (s1, Raise e)
    | r => r
    end.

(** [assert b] *)
Definition assert_ (b : bool) : M unit :=
  if b then ret tt else raise AssertionError.

(** Lifting the outcome of an [await] on the environment. *)
Definition await_ (o : awaited) : M unit :=
  match o with
  | Returned => ret tt
  | Raised e => raise e
  end.

Notation "x <- c1 ;; c2" := (bind c1 (fun x => c2))
  (at level 61, c1 at next level, right associativity).
Notation "c1 ;;; c2" := (bind c1 (fun _ => c2))
  (at level 61, right associativity).

(** ** Scheduling helpers *)

(** [util.create_task]: a fresh pending task. *)
Definition create_task (c : coro) : M Future :=
  fun s =>
    (log (EvCreateTask c (next_id s)) (set_next_id (S (next_id s)) s),
     Ok (mkFuture (next_id s) c Pending)).

(** [_done] and [_exception], the local helpers of [_bh_disconnect]. *)
Definition _done (task : option Future) : bool :=
  match task with
  | None => false
  | Some t => done t
  end.

Definition _exception (task : option Future) : option exn :=
  match task with
  | None => None
  | Some t => if done t then exception t else None
  end.

(** The done-callback [asyncio.gather] hangs on each child: the first
    child to end with an exception settles the outer future with it;
    the outer future returns once every child has returned. *)
Definition gather_callback (r : option exn) (s : AsyncProtocol)
  : AsyncProtocol :=
  match _bh_tasks s with
  | Some g =>
      match fut_state_of g, r with
      | Pending, Some e => set_bh_tasks (Some (set_state (Finished r) g)) s
      | Pending, None =>
          if _done (_reader_task s) && _done (_writer_task s)
          then set_bh_tasks (Some (set_state (Finished None) g)) s
          else s
      | Finished _, _ => s
      end
  | None => s
  end.

(** A loop task ends with result [r]: the task records it and the
    gather callback runs. *)
Definition finish_task (c : coro) (r : option exn) (s : AsyncProtocol)
  : AsyncProtocol :=
  match c with
  | ReaderCoro =>
      gather_callback r
        (set_reader_task (option_map (set_state (Finished r)) (_reader_task s)) s)
  | WriterCoro =>
      gather_callback r
        (set_writer_task (option_map (set_state (Finished r)) (_writer_task s)) s)
  | DisconnectCoro =>
      set_dc_task (option_map (set_state (Finished r)) (_dc_task s)) s
  | GatherFuture => s
  end.

(** ** Session machinery *)

(** [_schedule_disconnect] *)
Definition _schedule_disconnect : M unit :=
  dc <- gets _dc_task ;;
  match dc with
  | None =>
      t <- create_task DisconnectCoro ;;
      modify (set_dc_task (Some t))
  | Some _ => ret tt
  end.

(** [_paranoid_task_erase], the local helper of [_cleanup]. *)
Definition _paranoid_task_erase (task : option Future) : M (option Future) :=
  assert_ (match task with None => true | Some t => done t end) ;;;
  ret (match task with
       | Some t => if done t then None else task
       | None => task
       end).

(** [_cleanup] *)
Definition _cleanup : M unit :=
  modify (log EvCleanup) ;;;
  dc <- gets _dc_task ;;
  dc' <- _paranoid_task_erase dc ;;
  modify (set_dc_task dc') ;;;
  rt <- gets _reader_task ;;
  rt' <- _paranoid_task_erase rt ;;
  modify (set_reader_task rt') ;;;
  wt <- gets _writer_task ;;
  wt' <- _paranoid_task_erase wt ;;
  modify (set_writer_task wt') ;;;
  bh <- gets _bh_tasks ;;
  bh' <- _paranoid_task_erase bh ;;
  modify (set_bh_tasks bh') ;;;
  modify (set_reader None) ;;;
  modify (set_writer None).

(** ** Bottom half: the loops *)

(** [while True: await async_fn()]; out of fuel, the loop is still
    running, parked inside an iteration. *)
Fixpoint while_true (async_fn : M unit) (fuel : nat) : M unit :=
  match fuel with
  | 0 => suspend
  | S n => async_fn ;;; while_true async_fn n
  end.

(** [_bh_loop_forever] *)
Definition _bh_loop_forever (async_fn : M unit) (fuel : nat) : M unit :=
  try_except (while_true async_fn fuel) (fun _ => true)
    (fun e =>
       if is_CancelledError e
       then ret tt
       else _schedule_disconnect ;;; raise e).

(** The task wrapped around a loop coroutine: it runs the coroutine
    and, when that ends, records how. *)
Definition run_loop_task (c : coro) (async_fn : M unit) (fuel : nat)
  : AsyncProtocol -> AsyncProtocol :=
  fun s =>
    match _bh_loop_forever async_fn fuel s with
    | (s1, Ok _) => finish_task c None s1
    | (s1, Raise e) => finish_task c (Some e) s1
    | (s1, Suspended) => s1
    end.

(** [await self._outgoing.get()]: a cancellation arrives here, an
    empty queue parks the caller, otherwise the head is handed out. *)
Definition queue_get (cancel : option exn) : M T :=
  match cancel with
  | Some e => raise e
  | None =>
      q <- gets _outgoing ;;
      match items q with
      | [] => suspend
      | m :: rest =>
          modify (set_outgoing (mkQueue rest (unfinished_tasks q))) ;;;
          modify (log (EvGet m)) ;;;
          ret m
      end
  end.

(** [_send], with [_do_send] the hook of the protocol layer. *)
Definition _send (_do_send : T -> awaited) (msg : T) : M unit :=
  modify (log (EvSend msg)) ;;;
  await_ (_do_send msg).

(** [_bh_send_message] *)
Definition _bh_send_message (cancel : option exn) (_do_send : T -> awaited)
  : M unit :=
  msg <- queue_get cancel ;;
  try_finally
    (_send _do_send msg)
    (modify (fun s => set_outgoing (task_done (_outgoing s)) s) ;;;
     modify (log EvTaskDone)).

(** [_bh_recv_message], with the [_do_recv] and [_on_message] hooks. *)
Definition _bh_recv_message (_do_recv : result T) (_on_message : T -> awaited)
  : M unit :=
  msg <- (fun s => (s, _do_recv)) ;;
  await_ (_on_message msg).

(** ** Bottom half: the disconnect orchestrator *)

(** What the surroundings do at the suspension points of a teardown. *)
Record Env : Type := mkEnv {
  do_send : T -> awaited;        (* the [_do_send] hook, per message *)
  drain_result : awaited;        (* [await writer.drain()] *)
  wait_closed_result : awaited;  (* [await wait_closed(writer)] *)
  cancel_id : nat                (* identity of the CancelledError that
                                    [task.cancel()] throws into a task *)
}.

Definition is_some {A} (o : option A) : bool :=
  match o with
  | Some _ => true
  | None => false
  end.

(** [await self._outgoing.join()]: nothing to wait for when every item
    is marked done; otherwise the writer task runs until it parks on
    the empty queue or dies, and the caller stays parked unless the
    count reached zero. *)
Definition outgoing_join (env : Env) : M unit :=
  modify (log EvJoin) ;;;
  q <- gets _outgoing ;;
  if Nat.eqb (unfinished_tasks q) 0 then ret tt
  else
    modify (run_loop_task WriterCoro
              (_bh_send_message None (do_send env))
              (S (List.length (items q)))) ;;;
    q' <- gets _outgoing ;;
    if Nat.eqb (unfinished_tasks q') 0 then ret tt else suspend.

(** [await flush(self._writer)] *)
Definition flush_writer (env : Env) (w : StreamWriter) : M unit :=
  modify (log EvFlush) ;;;
  let '(w', r) := flush (drain_result env) w in
  modify (set_writer (Some w')) ;;;
  await_ r.

Definition task_of (c : coro) (s : AsyncProtocol) : option Future :=
  match c with
  | ReaderCoro => _reader_task s
  | WriterCoro => _writer_task s
  | GatherFuture => _bh_tasks s
  | DisconnectCoro => _dc_task s
  end.

(** [task.cancel()] followed by [await asyncio.wait((task,))]: a task
    still running gets a CancelledError at the [await] it is parked on
    and runs to its end; the wait itself never raises. *)
Definition cancel_and_wait (env : Env) (c : coro) : M unit :=
  modify (log (EvCancel c)) ;;;
  t <- gets (task_of c) ;;
  (if _done t then ret tt
   else modify (run_loop_task c
                  (raise (Exn (cancel_id env) CancelledError)) 1)) ;;;
  modify (log (EvWait c)).

(** [_bh_stop_writer] *)
Definition _bh_stop_writer (env : Env) (force : bool) : M unit :=
  wt <- gets _writer_task ;;
  if negb (is_some wt) || _done wt then ret tt
  else
    (if negb force then
       outgoing_join env ;;;
       w <- gets _writer ;;
       match w with
       | Some wr => flush_writer env wr
       | None => ret tt
       end
     else ret tt) ;;;
    cancel_and_wait env WriterCoro.

(** [_bh_stop_reader] *)
Definition _bh_stop_reader (env : Env) : M unit :=
  rt <- gets _reader_task ;;
  if negb (is_some rt) || _done rt then ret tt
  else cancel_and_wait env ReaderCoro.

(** [err is not _exception(task)] *)
Definition is_not (err : exn) (o : option exn) : bool :=
  match o with
  | None => true
  | Some e => negb (exn_is err e)
  end.

(** [self._writer.close()] *)
Definition close (w : StreamWriter) : M unit :=
  modify (set_writer (Some (mkWriter (limit_low w) (limit_high w)
                                     (buffered w) true (limits_log w)))) ;;;
  modify (log EvClose).

(** [_bh_disconnect] *)
Definition _bh_disconnect (env : Env) : M unit :=
  rt <- gets _reader_task ;;
  wt <- gets _writer_task ;;
  let error_pathway := _done rt || _done wt in
  _bh_stop_writer env error_pathway ;;;
  _bh_stop_reader env ;;;
  w <- gets _writer ;;
  match w with
  | Some wr =>
      (if negb (closing wr) then close wr else ret tt) ;;;
      try_except
        (modify (log EvWaitClosed) ;;; await_ (wait_closed_result env))
        is_Exception
        (fun err =>
           rt' <- gets _reader_task ;;
           wt' <- gets _writer_task ;;
           if forallb (fun task => is_not err (_exception task)) [rt'; wt']
           then raise err
           else ret tt)
  | None => ret tt
  end.

(** The disconnect task: it runs [_bh_disconnect], if it has not
    finished yet, and records how that ended. *)
Definition run_dc_task (env : Env) (s : AsyncProtocol) : AsyncProtocol :=
  if _done (_dc_task s) then s
  else
    match _bh_disconnect env s with
    | (s1, Ok _) => finish_task DisconnectCoro None s1
    | (s1, Raise e) => finish_task DisconnectCoro (Some e) s1
    | (s1, Suspended) => s1
    end.

(** [await fut] on a future of the session: its result once it is
    done; parked while it is pending. *)
Definition await_future (c : coro) : M unit :=
  t <- gets (task_of c) ;;
  match t with
  | Some f =>
      match fut_state_of f with
      | Finished None => ret tt
      | Finished (Some e) => raise e
      | Pending => suspend
      end
  | None => raise AssertionError
  end.

(** ** Upper half *)

(** [_wait_disconnect] *)
Definition _wait_disconnect (env : Env) : M unit :=
  dc <- gets _dc_task ;;
  assert_ (is_some dc) ;;;
  try_finally
    (modify (run_dc_task env) ;;;
     await_future DisconnectCoro ;;;
     bh <- gets _bh_tasks ;;
     match bh with
     | Some _ => await_future GatherFuture
     | None => ret tt
     end)
    _cleanup.

(** [disconnect] *)
Definition disconnect (env : Env) : M unit :=
  _schedule_disconnect ;;;
  _wait_disconnect env.

(** [_do_connect]; [opened] is the outcome of awaiting
    [asyncio.open_connection] or [asyncio.open_unix_connection]. *)
Definition _do_connect (opened : result StreamWriter) : M unit :=
  modify (log EvOpenConnection) ;;;
  w <- (fun s => (s, opened)) ;;
  modify (set_reader (Some tt)) ;;;
  modify (set_writer (Some w)).

(** [_establish_connection] *)
Definition _establish_connection (opened : result StreamWriter) : M unit :=
  _do_connect opened.

(** [_establish_session] of the base class. [asyncio.gather] builds
    its future directly, not through [create_task]. *)
Definition _establish_session : M unit :=
  modify (set_outgoing empty_queue) ;;;
  r <- create_task ReaderCoro ;;
  w <- create_task WriterCoro ;;
  modify (set_reader_task (Some r)) ;;;
  modify (set_writer_task (Some w)) ;;;
  g <- (fun s => (set_next_id (S (next_id s)) s,
                  Ok (mkFuture (next_id s) GatherFuture Pending))) ;;
  modify (set_bh_tasks (Some g)).

(** [_new_session]. [establish_session] is the method the call
    [self._establish_session()] dispatches to: the base one above, or a
    subclass override.  The local [phase] is which of the two calls was
    reached when the exception came. *)
Definition _new_session (env : Env) (opened : result StreamWriter)
           (establish_session : M unit) : M unit :=
  let handler (phase : string) (err : exn) : M unit :=
    let emsg := String.append "Failed to establish " phase in
    disconnect env ;;;
    if is_CancelledError err then raise err
    else if is_Exception err then raise (ConnectError emsg err)
    else raise err in
  try_except (_establish_connection opened) (fun _ => true)
             (handler "connection"%string) ;;;
  try_except establish_session (fun _ => true) (handler "session"%string).

(** [connect] *)
Definition connect (env : Env) (opened : result StreamWriter)
           (establish_session : M unit) : M unit :=
  _new_session env opened establish_session.

(** [n] disconnect triggers in a row, from callers of [disconnect] or
    from failing loops. *)
Fixpoint triggers (n : nat) : M unit :=
  match n with
  | 0 => ret tt
  | S k => _schedule_disconnect ;;; triggers k
  end.

(** How many disconnect tasks a trace shows being created. *)
Fixpoint dc_created (tr : list event) : nat :=
  match tr with
  | [] => 0
  | EvCreateTask DisconnectCoro _ :: rest => S (dc_created rest)
  | _ :: rest => dc_created rest
  end.

(** A handle that cleanup may erase: absent, or a finished task. *)
Definition quiesced (task : option Future) : bool :=
  match task with
  | None => true
  | Some t => done t
  end.

(** A reader or writer task. *)
Definition is_loop (c : coro) : bool :=
  match c with
  | ReaderCoro | WriterCoro => true
  | _ => false
  end.

(** The events of sending the messages of [l] one iteration each. *)
Definition send_events (l : list T) : list event :=
  flat_map (fun m => [EvGet m; EvSend m; EvTaskDone]) l.

(** The session once the writer loop has sent all of [l]. *)
Definition after_drain (l : list T) (s : AsyncProtocol) : AsyncProtocol :=
  mkProto (_reader s) (_writer s)
          (mkQueue [] (unfinished_tasks (_outgoing s) - List.length l))
          (_reader_task s) (_writer_task s) (_bh_tasks s) (_dc_task s)
          (next_id s) (trace s ++ send_events l).


(** Every handle of the session is empty again. *)
Definition is_reset (s : AsyncProtocol) : bool :=
  negb (is_some (_reader s)) && negb (is_some (_writer s)) &&
  negb (is_some (_reader_task s)) && negb (is_some (_writer_task s)) &&
  negb (is_some (_bh_tasks s)) && negb (is_some (_dc_task s)).

(** What [_new_session] raises for root cause [err] once the
    disconnect has returned. *)
Definition surfaced (phase : string) (err : exn) : exn :=
  if is_CancelledError err then err
  else if is_Exception err
       then ConnectError (String.append "Failed to establish " phase) err
       else err.

(** The [except] clause of [_new_session] as a whole. *)
Definition failure_path (env : Env) (phase : string) (err : exn) : M unit :=
  fun s =>
    match disconnect env s with
    | (s2, Ok _) => (s2, Raise (surfaced phase err))
    | (s2, Raise e) => (s2, Raise e)
    | (s2, Suspended) => (s2, Suspended)
    end.

(** [s1] has the writer of [s] and a trace that extends the one of [s]. *)
Definition extends (s s1 : AsyncProtocol) : Prop :=
  _writer s1 = _writer s /\ exists t, trace s1 = trace s ++ t.

(** ** Scenarios *)

(** A transport with limits (16, 64) and 40 bytes buffered. *)
Definition a_writer : StreamWriter := mkWriter 16 64 40 false [].

(** Surroundings in which every await returns. *)
Definition quiet_env : Env :=
  mkEnv (fun _ => Returned) Returned Returned 99.

(** The session after one successful [connect] of the base class. *)
Definition running_session : AsyncProtocol :=
  fst (connect quiet_env (Ok a_writer) _establish_session init).

(** Surroundings in which [writer.drain()] raises, the connection
    having been lost. *)
Definition drain_fails_env : Env :=
  mkEnv (fun _ => Returned) (Raised (Exn 5 ExceptionClass)) Returned 99.


(** An override of [_establish_session] that calls the base method
    and then negotiates: while it waits, the reader loop dies with
    [F]; the negotiation then fails with [E]. *)
Definition negotiating_session (F E : exn) : M unit :=
  _establish_session ;;;
  modify (run_loop_task ReaderCoro
            (_bh_recv_message (Raise F) (fun _ => Returned)) 1) ;;;
  raise E.





(** * Properties *)

(** ** Scheduling a disconnect *)

Lemma schedule_disconnect_set s t :
  _dc_task s = Some t -> _schedule_disconnect s = (s, Ok tt).
Proof.
  intros H. unfold _schedule_disconnect, bind, gets. rewrite H. reflexivity.
Qed.

Lemma schedule_disconnect_unset s :
  _dc_task s = None ->
  _schedule_disconnect s =
  (set_dc_task (Some (mkFuture (next_id s) DisconnectCoro Pending))
     (log (EvCreateTask DisconnectCoro (next_id s))
        (set_next_id (S (next_id s)) s)), Ok tt).
Proof.
  intros H. unfold _schedule_disconnect, bind, gets. rewrite H. reflexivity.
Qed.

Lemma schedule_disconnect_result s :
  snd (_schedule_disconnect s) = Ok tt /\
  is_some (_dc_task (fst (_schedule_disconnect s))) = true.
Proof.
  destruct (_dc_task s) as [t|] eqn:E.
  - rewrite (schedule_disconnect_set _ _ E). simpl. rewrite E. auto.
  - rewrite (schedule_disconnect_unset _ E). simpl. auto.
Qed.

Lemma dc_created_app tr1 tr2 :
  dc_created (tr1 ++ tr2) = dc_created tr1 + dc_created tr2.
Proof.
  induction tr1 as [|e tr1 IH]; simpl; [reflexivity|].
  destruct e; try assumption.
  destruct c; simpl; try assumption. now rewrite IH.
Qed.

Lemma triggers_set n : forall s t,
  _dc_task s = Some t -> triggers n s = (s, Ok tt).
Proof.
  induction n as [|n IH]; intros s t H; simpl.
  - reflexivity.
  - unfold bind. rewrite (schedule_disconnect_set _ _ H). eauto.
Qed.

(** C7: scheduling a disconnect is idempotent.  With the handle set, a
    trigger changes nothing and creates no task; with the handle
    empty, it creates one task; and any number of triggers in a row
    ends in the state the first of them produced, so one disconnect
    task at most is created and every later trigger finds that one. *)
Theorem schedule_disconnect_idempotent (s : AsyncProtocol) (n : nat) :
  triggers (S n) s = _schedule_disconnect s /\
  (forall t, _dc_task s = Some t -> _schedule_disconnect s = (s, Ok tt)) /\
  (_dc_task s = None ->
   _dc_task (fst (_schedule_disconnect s)) =
     Some (mkFuture (next_id s) DisconnectCoro Pending)) /\
  dc_created (trace (fst (triggers (S n) s))) <= S (dc_created (trace s)) /\
  _dc_task (fst (triggers (S n) s)) = _dc_task (fst (_schedule_disconnect s)).
Proof.
  assert (Hfirst : triggers (S n) s = _schedule_disconnect s).
  { simpl. unfold bind.
    destruct (schedule_disconnect_result s) as [Hr Hs].
    destruct (_schedule_disconnect s) as [s1 r] eqn:E. simpl in *. subst r.
    destruct (_dc_task s1) as [t|] eqn:E1; [|discriminate].
    now rewrite (triggers_set n _ _ E1). }
  split; [exact Hfirst|].
  split; [intros t H; now apply schedule_disconnect_set with t|].
  split; [intros H; now rewrite (schedule_disconnect_unset _ H)|].
  rewrite Hfirst. split; [|reflexivity].
  destruct (_dc_task s) as [t|] eqn:E.
  - rewrite (schedule_disconnect_set _ _ E). simpl. lia.
  - rewrite (schedule_disconnect_unset _ E). simpl.
    rewrite dc_created_app. simpl. lia.
Qed.

(** ** Cleanup *)

Lemma paranoid_erase_quiesced task s :
  quiesced task = true -> _paranoid_task_erase task s = (s, Ok None).
Proof.
  destruct task as [t|]; simpl; intros H;
    unfold _paranoid_task_erase, bind, assert_, ret; simpl;
    rewrite ?H; reflexivity.
Qed.

Lemma paranoid_erase_running task s :
  quiesced task = false ->
  _paranoid_task_erase task s = (s, Raise AssertionError).
Proof.
  destruct task as [t|]; simpl; intros H; [|discriminate].
  unfold _paranoid_task_erase, bind, assert_, raise. now rewrite H.
Qed.

(** C9: the helper erases a handle only when it is absent or its task
    is done, and raises the assertion otherwise; so a cleanup that
    returns has found all four handles quiesced and left them empty,
    and whatever cleanup does, a handle whose task is not done is
    still in place afterwards. *)
Theorem cleanup_erases_only_quiesced (s : AsyncProtocol) :
  (forall task r s', _paranoid_task_erase task s = (s', Ok r) ->
     quiesced task = true /\ r = None /\ s' = s) /\
  (forall task, quiesced task = false ->
     _paranoid_task_erase task s = (s, Raise AssertionError)) /\
  (snd (_cleanup s) = Ok tt ->
     forall c, quiesced (task_of c s) = true /\
               task_of c (fst (_cleanup s)) = None) /\
  (forall c, quiesced (task_of c s) = false ->
     task_of c (fst (_cleanup s)) = task_of c s) /\
  snd (_cleanup s) <> Suspended.
Proof.
  split; [|split; [|split; [|split]]].
  - intros task r s' H. destruct (quiesced task) eqn:Q.
    + rewrite (paranoid_erase_quiesced _ _ Q) in H. now inversion H.
    + rewrite (paranoid_erase_running _ _ Q) in H. discriminate.
  - intros task Q. now apply paranoid_erase_running.
  - destruct s as [r w q [[? ? [|?]]|] [[? ? [|?]]|] [[? ? [|?]]|] [[? ? [|?]]|] n tr];
      cbn; intros H; try discriminate; intros []; cbn; auto.
  - destruct s as [r w q [[? ? [|?]]|] [[? ? [|?]]|] [[? ? [|?]]|] [[? ? [|?]]|] n tr];
      intros []; cbn; intros H; try discriminate; reflexivity.
  - destruct s as [r w q [[? ? [|?]]|] [[? ? [|?]]|] [[? ? [|?]]|] [[? ? [|?]]|] n tr];
      cbn; discriminate.
Qed.

(** ** The writer iteration *)

(** C8: an iteration that dequeues message [m] attempts the send and
    then marks the item done exactly once, whether the send returned or
    raised; the outstanding count drops by that one only after the send
    attempt.  An iteration that never got a message (cancelled at the
    [get], or parked on the empty queue) leaves the queue alone. *)
Theorem send_message_marks_done (s : AsyncProtocol) (m : T) (rest : list T)
        (_do_send : T -> awaited) :
  items (_outgoing s) = m :: rest ->
  (exists s',
     _bh_send_message None _do_send s =
       (s', match _do_send m with Returned => Ok tt | Raised e => Raise e end) /\
     trace s' = trace s ++ [EvGet m; EvSend m; EvTaskDone] /\
     items (_outgoing s') = rest /\
     unfinished_tasks (_outgoing s') = pred (unfinished_tasks (_outgoing s))) /\
  (forall e, _bh_send_message (Some e) _do_send s = (s, Raise e)) /\
  (forall s0, items (_outgoing s0) = [] ->
     _bh_send_message None _do_send s0 = (s0, Suspended)).
Proof.
  intros H. split; [|split].
  - destruct s as [r w [it u] rt wt bh dc n tr]. simpl in H. subst it.
    unfold _bh_send_message, queue_get, _send, try_finally, bind, gets,
      modify, ret, await_; simpl.
    destruct (_do_send m) as [|e]; simpl;
      (eexists; split; [reflexivity|]; simpl;
       rewrite <- !app_assoc; simpl; auto).
  - intros e. reflexivity.
  - intros s0 H0. unfold _bh_send_message, queue_get, bind, gets.
    now rewrite H0.
Qed.

(** ** The loops *)

Lemma schedule_disconnect_frame s :
  _reader_task (fst (_schedule_disconnect s)) = _reader_task s /\
  _writer_task (fst (_schedule_disconnect s)) = _writer_task s /\
  _bh_tasks (fst (_schedule_disconnect s)) = _bh_tasks s /\
  _writer (fst (_schedule_disconnect s)) = _writer s /\
  _outgoing (fst (_schedule_disconnect s)) = _outgoing s.
Proof.
  destruct (_dc_task s) as [t|] eqn:E.
  - rewrite (schedule_disconnect_set _ _ E). auto.
  - rewrite (schedule_disconnect_unset _ E). auto.
Qed.

Lemma gather_callback_clean s :
  _exception (_bh_tasks (gather_callback None s)) = _exception (_bh_tasks s).
Proof.
  unfold gather_callback.
  destruct (_bh_tasks s) as [[i c [|r]]|] eqn:E; simpl; rewrite ?E; auto.
  destruct (_done (_reader_task s) && _done (_writer_task s));
    simpl; rewrite ?E; reflexivity.
Qed.

Lemma gather_callback_fault e s g :
  _bh_tasks s = Some g ->
  _exception (_bh_tasks (gather_callback (Some e) s)) =
    match fut_state_of g with
    | Pending => Some e
    | Finished r => r
    end.
Proof.
  intros E. unfold gather_callback. rewrite E.
  destruct g as [i c [|r]]; simpl; rewrite ?E; reflexivity.
Qed.

Lemma finish_task_state c r s t :
  is_loop c = true -> task_of c s = Some t ->
  task_of c (finish_task c r s) = Some (set_state (Finished r) t).
Proof.
  destruct c; try discriminate; intros _ H; simpl in *;
    unfold gather_callback; simpl;
    rewrite H; simpl;
    destruct (_bh_tasks s) as [[i c [|x]]|]; simpl; try reflexivity;
    destruct r; simpl; try reflexivity;
    match goal with |- context [if ?b then _ else _] => destruct b end;
    reflexivity.
Qed.

(** C4: the termination discipline of [_bh_loop_forever].  When the
    iterations end in a cancellation, the loop returns normally, no
    disconnect is scheduled by it, its task finishes without an
    exception and the join future reports exactly the fault it
    reported before (none, or the other loop's).  When they end in any
    other exception [e], a disconnect is scheduled first, [e] is
    re-raised, the task finishes with [e], and a join future that was
    still pending is settled with [e]. *)
Theorem loop_termination_discipline
        (async_fn : M unit) (fuel : nat) (c : coro)
        (s s1 : AsyncProtocol) (e : exn) :
  is_loop c = true ->
  while_true async_fn fuel s = (s1, Raise e) ->
  (is_CancelledError e = true ->
     _bh_loop_forever async_fn fuel s = (s1, Ok tt) /\
     run_loop_task c async_fn fuel s = finish_task c None s1 /\
     (forall t, task_of c s1 = Some t ->
        task_of c (run_loop_task c async_fn fuel s) =
          Some (set_state (Finished None) t)) /\
     _exception (_bh_tasks (run_loop_task c async_fn fuel s)) =
       _exception (_bh_tasks s1)) /\
  (is_CancelledError e = false ->
     let s2 := fst (_schedule_disconnect s1) in
     _bh_loop_forever async_fn fuel s = (s2, Raise e) /\
     is_some (_dc_task s2) = true /\
     run_loop_task c async_fn fuel s = finish_task c (Some e) s2 /\
     (forall t, task_of c s1 = Some t ->
        task_of c (run_loop_task c async_fn fuel s) =
          Some (set_state (Finished (Some e)) t)) /\
     (forall g, _bh_tasks s1 = Some g ->
        _exception (_bh_tasks (run_loop_task c async_fn fuel s)) =
          match fut_state_of g with
          | Pending => Some e
          | Finished r => r
          end)).
Proof.
  intros Hc Hw. split; intros He.
  - assert (Hl : _bh_loop_forever async_fn fuel s = (s1, Ok tt)).
    { unfold _bh_loop_forever, try_except. rewrite Hw, He. reflexivity. }
    assert (Hr : run_loop_task c async_fn fuel s = finish_task c None s1).
    { unfold run_loop_task. now rewrite Hl. }
    split; [exact Hl|]. split; [exact Hr|]. rewrite Hr. split.
    + intros t Ht. now apply finish_task_state.
    + destruct c; try discriminate; simpl; now rewrite gather_callback_clean.
  - cbv zeta.
    destruct (schedule_disconnect_result s1) as [Hok Hdc].
    destruct (schedule_disconnect_frame s1) as (Fr & Fw & Fb & _).
    destruct (_schedule_disconnect s1) as [s2 r2] eqn:E2. simpl in *. subst r2.
    assert (Hl : _bh_loop_forever async_fn fuel s = (s2, Raise e)).
    { unfold _bh_loop_forever, try_except. rewrite Hw, He.
      unfold bind. now rewrite E2. }
    assert (Hr : run_loop_task c async_fn fuel s = finish_task c (Some e) s2).
    { unfold run_loop_task. now rewrite Hl. }
    split; [exact Hl|]. split; [exact Hdc|]. split; [exact Hr|].
    rewrite Hr. split.
    + intros t Ht. apply finish_task_state; [assumption|].
      destruct c; try discriminate; simpl in *; congruence.
    + intros g Hg. rewrite <- Fb in Hg.
      destruct c; try discriminate; simpl;
        now rewrite (gather_callback_fault e _ g).
Qed.

(** ** Stopping the writer *)

Lemma send_iteration_ok (_do_send : T -> awaited) s m rest :
  items (_outgoing s) = m :: rest ->
  _do_send m = Returned ->
  _bh_send_message None _do_send s =
    (mkProto (_reader s) (_writer s)
             (mkQueue rest (pred (unfinished_tasks (_outgoing s))))
             (_reader_task s) (_writer_task s) (_bh_tasks s) (_dc_task s)
             (next_id s) (trace s ++ [EvGet m; EvSend m; EvTaskDone]), Ok tt).
Proof.
  intros Hi Hs. destruct s as [r w [it u] rt wt bh dc n tr].
  simpl in Hi. subst it.
  unfold _bh_send_message, queue_get, _send, try_finally, bind, gets,
    modify, ret, await_; simpl. rewrite Hs. simpl.
  unfold log, set_outgoing, task_done. simpl.
  rewrite <- ?app_assoc. reflexivity.
Qed.

Lemma send_iteration_parked (_do_send : T -> awaited) s :
  items (_outgoing s) = [] ->
  _bh_send_message None _do_send s = (s, Suspended).
Proof.
  intros H. unfold _bh_send_message, queue_get, bind, gets. now rewrite H.
Qed.

Lemma while_true_drain (_do_send : T -> awaited) (l : list T) :
  forall s,
    items (_outgoing s) = l ->
    (forall m, In m l -> _do_send m = Returned) ->
    while_true (_bh_send_message None _do_send) (S (List.length l)) s =
      (after_drain l s, Suspended).
Proof.
  induction l as [|m l IH]; intros s Hi Hs.
  - simpl. unfold bind. rewrite (send_iteration_parked _ _ Hi).
    destruct s as [r w [it u] rt wt bh dc n tr]. simpl in Hi. subst it.
    unfold after_drain. simpl. now rewrite Nat.sub_0_r, app_nil_r.
  - change (while_true (_bh_send_message None _do_send)
                        (S (List.length (m :: l))) s)
      with (bind (_bh_send_message None _do_send)
                 (fun _ => while_true (_bh_send_message None _do_send)
                                      (S (List.length l))) s).
    unfold bind at 1.
    rewrite (send_iteration_ok _ s m l Hi (Hs m (or_introl eq_refl))).
    rewrite IH; [|reflexivity|intros x Hx; apply Hs; now right].
    unfold after_drain. simpl. rewrite <- app_assoc. simpl.
    replace (Nat.pred (unfinished_tasks (_outgoing s)) - List.length l)
      with (unfinished_tasks (_outgoing s) - S (List.length l)) by lia.
    reflexivity.
Qed.

Lemma flush_spec (o : awaited) (w : StreamWriter) :
  limit_low w <= limit_high w ->
  flush o w =
    (mkWriter (limit_low w) (limit_high w)
              (match o with Returned => 0 | Raised _ => buffered w end)
              (closing w)
              (limits_log w ++ [(0, 0); (limit_high w, limit_low w)]), o).
Proof.
  intros H. apply Nat.leb_le in H.
  unfold flush, get_write_buffer_limits, set_write_buffer_limits, drain.
  destruct o; simpl; rewrite H; simpl; rewrite <- app_assoc;
    rewrite ?Nat.min_0_r; reflexivity.
Qed.

Lemma outgoing_join_drains (env : Env) s :
  unfinished_tasks (_outgoing s) = List.length (items (_outgoing s)) ->
  (forall m, In m (items (_outgoing s)) -> do_send env m = Returned) ->
  outgoing_join env s =
    (after_drain (items (_outgoing s)) (log EvJoin s), Ok tt).
Proof.
  intros Hu Hs. unfold outgoing_join, bind, modify, gets.
  change (_outgoing (log EvJoin s)) with (_outgoing s).
  destruct (Nat.eqb (unfinished_tasks (_outgoing s)) 0) eqn:E.
  - apply Nat.eqb_eq in E. rewrite E in Hu.
    destruct s as [r w [it u] rt wt bh dc n tr]. simpl in *.
    destruct it; [|discriminate]. subst u.
    unfold ret, after_drain, log. simpl. now rewrite app_nil_r.
  - unfold run_loop_task, _bh_loop_forever, try_except.
    rewrite (while_true_drain (do_send env) (items (_outgoing s)));
      [|reflexivity|exact Hs].
    simpl. rewrite Hu, Nat.sub_diag. reflexivity.
Qed.

Lemma cancel_and_wait_pending (env : Env) c s t :
  is_loop c = true ->
  task_of c s = Some t -> fut_state_of t = Pending ->
  cancel_and_wait env c s =
    (log (EvWait c) (finish_task c None (log (EvCancel c) s)), Ok tt).
Proof.
  intros Hc Ht Hp. unfold cancel_and_wait, bind, modify, gets.
  replace (task_of c (log (EvCancel c) s)) with (task_of c s)
    by (destruct c; reflexivity).
  rewrite Ht. unfold _done, done. rewrite Hp. reflexivity.
Qed.

Lemma cancel_and_wait_returns (env : Env) c s :
  snd (cancel_and_wait env c s) = Ok tt.
Proof.
  unfold cancel_and_wait, bind, modify, gets.
  destruct (_done (task_of c (log (EvCancel c) s))); reflexivity.
Qed.

Lemma finish_task_frame c r s :
  let s' := finish_task c r s in
  _writer s' = _writer s /\ _reader s' = _reader s /\
  _outgoing s' = _outgoing s /\ trace s' = trace s /\
  next_id s' = next_id s.
Proof.
  destruct c; simpl; unfold gather_callback; simpl;
    repeat match goal with
           | |- context [match ?x with _ => _ end] => destruct x; simpl
           end; auto.
Qed.

(** ** Stopping the writer, whatever the surroundings do *)

Lemma extends_refl s : extends s s.
Proof. split; [reflexivity|]. exists []. now rewrite app_nil_r. Qed.

Lemma extends_trans s s1 s2 : extends s s1 -> extends s1 s2 -> extends s s2.
Proof.
  intros [W1 [t1 T1]] [W2 [t2 T2]]. split; [congruence|].
  exists (t1 ++ t2). now rewrite T2, T1, app_assoc.
Qed.

Lemma send_iteration_extends (f : T -> awaited) s :
  extends s (fst (_bh_send_message None f s)).
Proof.
  destruct s as [r w [it u] rt wt bh dc n tr].
  unfold _bh_send_message, queue_get, _send, try_finally, bind, gets,
    modify, ret, await_, extends; simpl.
  destruct it as [|m it]; simpl.
  - split; [reflexivity|]. exists []. now rewrite app_nil_r.
  - destruct (f m); simpl; (split; [reflexivity|]);
      exists [EvGet m; EvSend m; EvTaskDone];
      rewrite <- ?app_assoc; reflexivity.
Qed.

Lemma while_true_extends (f : T -> awaited) fuel :
  forall s, extends s (fst (while_true (_bh_send_message None f) fuel s)).
Proof.
  induction fuel as [|k IH]; intros s; simpl.
  - apply extends_refl.
  - unfold bind. pose proof (send_iteration_extends f s) as H.
    destruct (_bh_send_message None f s) as [s1 [[]|e|]]; simpl in *;
      try exact H.
    eapply extends_trans; [exact H|apply IH].
Qed.

Lemma schedule_disconnect_extends s :
  extends s (fst (_schedule_disconnect s)).
Proof.
  destruct (_dc_task s) as [t|] eqn:E.
  - rewrite (schedule_disconnect_set _ _ E). apply extends_refl.
  - rewrite (schedule_disconnect_unset _ E). split; [reflexivity|].
    simpl. eauto.
Qed.

Lemma finish_task_extends c r s : extends s (finish_task c r s).
Proof.
  destruct (finish_task_frame c r s) as (W & _ & _ & Tr & _).
  split; [exact W|]. exists []. now rewrite app_nil_r.
Qed.

Lemma run_writer_extends (f : T -> awaited) fuel s :
  extends s (run_loop_task WriterCoro (_bh_send_message None f) fuel s).
Proof.
  unfold run_loop_task, _bh_loop_forever, try_except.
  pose proof (while_true_extends f fuel s) as H.
  destruct (while_true (_bh_send_message None f) fuel s) as [s1 [[]|e|]];
    simpl in H.
  - eapply extends_trans; [exact H|apply finish_task_extends].
  - destruct (is_CancelledError e).
    + eapply extends_trans; [exact H|apply finish_task_extends].
    + unfold bind. pose proof (schedule_disconnect_extends s1) as H1.
      destruct (_schedule_disconnect s1) as [s2 [[]|e2|]]; simpl in H1;
        (eapply extends_trans; [exact H|]);
        (eapply extends_trans; [exact H1|]);
        try apply finish_task_extends; apply extends_refl.
  - exact H.
Qed.

Lemma outgoing_join_returned env s s1 :
  outgoing_join env s = (s1, Ok tt) ->
  unfinished_tasks (_outgoing s1) = 0 /\
  _writer s1 = _writer s /\
  exists mid, trace s1 = trace s ++ EvJoin :: mid.
Proof.
  unfold outgoing_join, bind, modify, gets.
  change (_outgoing (log EvJoin s)) with (_outgoing s).
  destruct (Nat.eqb (unfinished_tasks (_outgoing s)) 0) eqn:E.
  - intros H. inversion H; subst. apply Nat.eqb_eq in E.
    split; [exact E|]. split; [reflexivity|]. exists []. reflexivity.
  - set (s2 := run_loop_task WriterCoro _ _ _).
    destruct (Nat.eqb (unfinished_tasks (_outgoing s2)) 0) eqn:E2;
      [|discriminate].
    intros H. inversion H; subst. apply Nat.eqb_eq in E2.
    split; [exact E2|].
    destruct (run_writer_extends (do_send env)
                (S (List.length (items (_outgoing s)))) (log EvJoin s))
      as [W [t Tr]].
    fold s2 in W, Tr. split; [exact W|].
    exists t. rewrite Tr. simpl. now rewrite <- app_assoc.
Qed.

Lemma cancel_and_wait_frame env c s :
  is_loop c = true ->
  let s' := fst (cancel_and_wait env c s) in
  trace s' = trace s ++ [EvCancel c; EvWait c] /\
  _outgoing s' = _outgoing s /\ _writer s' = _writer s.
Proof.
  intros Hc. unfold cancel_and_wait, bind, modify, gets.
  destruct (_done (task_of c (log (EvCancel c) s))); simpl.
  - rewrite <- app_assoc. auto.
  - unfold run_loop_task. simpl.
    destruct (finish_task_frame c None (log (EvCancel c) s))
      as (W & _ & O & Tr & _).
    cbv zeta in *. rewrite Tr, O, W. simpl. rewrite <- app_assoc. auto.
Qed.

Lemma stop_writer_returned env s s' wt wr :
  _writer_task s = Some wt -> fut_state_of wt = Pending ->
  _writer s = Some wr ->
  _bh_stop_writer env false s = (s', Ok tt) ->
  drain_result env = Returned /\
  unfinished_tasks (_outgoing s') = 0 /\
  exists mid, trace s' = trace s ++ EvJoin :: mid ++
                         [EvFlush; EvCancel WriterCoro; EvWait WriterCoro].
Proof.
  intros Hwt Hp Hw. unfold _bh_stop_writer. unfold bind at 1, gets.
  rewrite Hwt. unfold _done, done. rewrite Hp. cbn [negb is_some orb].
  unfold bind at 1. unfold bind at 1.
  destruct (outgoing_join env s) as [s1 [[]|e|]] eqn:Ej; try discriminate.
  destruct (outgoing_join_returned env s s1 Ej) as (U & W & mid & Tr).
  unfold bind at 1, gets. rewrite W, Hw.
  unfold flush_writer, bind at 1, modify.
  destruct (flush (drain_result env) wr) as [w' o] eqn:Ef.
  unfold bind at 1. unfold await_.
  assert (Ho : o = Returned -> drain_result env = Returned).
  { intros ->. revert Ef. unfold flush, get_write_buffer_limits. simpl.
    destruct (drain_result env) as [|e]; [reflexivity|].
    simpl. destruct (set_write_buffer_limits _ _ _); intros H;
      inversion H. }
  destruct o as [|e]; [|discriminate]. unfold ret.
  set (s2 := set_writer (Some w') (log EvFlush s1)).
  intros H.
  destruct (cancel_and_wait_frame env WriterCoro s2 eq_refl) as (Tr2 & O2 & _).
  rewrite H in Tr2, O2. simpl in Tr2, O2.
  split; [now apply Ho|]. split; [now rewrite O2|].
  exists mid. rewrite Tr2, Tr. rewrite <- !app_assoc. reflexivity.
Qed.

(** C5: stopping the writer.  The orchestrator passes
    [force = _done reader_task || _done writer_task].  With
    [force = false] and the writer task running, [_bh_stop_writer]
    joins the queue (every queued message gets its send and its
    [task_done]), flushes the writer with the limits at [(0, 0)] so
    that the buffer is empty afterwards, and only after that cancels the
    writer task and waits for it; the wait never raises.  With
    [force = true] it does nothing but cancel and wait: the queue and
    the writer are untouched.  And whatever the sends and the drain
    do, a graceful stop that returns has found the drain returning and
    the queue fully marked done, with the flush, the cancel and the
    wait as its last three steps, in that order. *)
Theorem stop_writer_graceful_then_cancel
        (env : Env) (s : AsyncProtocol) (wt : Future) (wr : StreamWriter) :
  _writer_task s = Some wt -> fut_state_of wt = Pending ->
  _writer s = Some wr -> limit_low wr <= limit_high wr ->
  unfinished_tasks (_outgoing s) = List.length (items (_outgoing s)) ->
  (forall m, In m (items (_outgoing s)) -> do_send env m = Returned) ->
  drain_result env = Returned ->
  (exists rest, forall s0,
     _bh_disconnect env s0 =
       bind (_bh_stop_writer env
               (_done (_reader_task s0) || _done (_writer_task s0))) rest s0) /\
  (exists s',
     _bh_stop_writer env false s = (s', Ok tt) /\
     trace s' = trace s ++ [EvJoin] ++ send_events (items (_outgoing s)) ++
                [EvFlush; EvCancel WriterCoro; EvWait WriterCoro] /\
     _outgoing s' = mkQueue [] 0 /\
     _writer s' =
       Some (mkWriter (limit_low wr) (limit_high wr) 0 (closing wr)
               (limits_log wr ++ [(0, 0); (limit_high wr, limit_low wr)])) /\
     _writer_task s' = Some (set_state (Finished None) wt)) /\
  (exists s',
     _bh_stop_writer env true s = (s', Ok tt) /\
     trace s' = trace s ++ [EvCancel WriterCoro; EvWait WriterCoro] /\
     _outgoing s' = _outgoing s /\
     _writer s' = _writer s /\
     _writer_task s' = Some (set_state (Finished None) wt)) /\
  (forall c s0, snd (cancel_and_wait env c s0) = Ok tt) /\
  (forall env' s',
     _bh_stop_writer env' false s = (s', Ok tt) ->
     drain_result env' = Returned /\
     unfinished_tasks (_outgoing s') = 0 /\
     exists mid,
       trace s' = trace s ++ EvJoin :: mid ++
                  [EvFlush; EvCancel WriterCoro; EvWait WriterCoro]).
Proof.
  intros Hwt Hp Hw Hlim Hu Hs Hd.
  split; [|split; [|split; [|split]]].
  - eexists. intros s0. unfold _bh_disconnect, bind at 1 2, gets. reflexivity.
  - unfold _bh_stop_writer. unfold bind at 1, gets.
    rewrite Hwt. unfold _done, done. rewrite Hp. cbn [negb is_some orb].
    unfold bind at 1. unfold bind at 1.
    rewrite (outgoing_join_drains env s Hu Hs).
    unfold bind at 1, gets.
    change (_writer (after_drain (items (_outgoing s)) (log EvJoin s)))
      with (_writer s).
    rewrite Hw. unfold flush_writer, bind at 1, modify.
    rewrite (flush_spec _ _ Hlim), Hd.
    unfold bind at 1. unfold await_, ret.
    match goal with
    | |- context [cancel_and_wait env WriterCoro ?x] =>
        rewrite (cancel_and_wait_pending env WriterCoro x wt eq_refl Hwt Hp);
        destruct (finish_task_frame WriterCoro None (log (EvCancel WriterCoro) x))
          as (Fw & _ & Fo & Ft & _);
        pose proof (finish_task_state WriterCoro None
                      (log (EvCancel WriterCoro) x) wt eq_refl Hwt) as Fs
    end.
    eexists. split; [reflexivity|].
    cbv zeta in *. simpl in Fs.
    split; [|split; [|split]].
    + cbn [trace log]. rewrite Ft. cbn [trace log set_writer after_drain].
      rewrite <- !app_assoc. reflexivity.
    + cbn [_outgoing log]. rewrite Fo.
      cbn [_outgoing log set_writer after_drain]. now rewrite Hu, Nat.sub_diag.
    + cbn [_writer log]. rewrite Fw. reflexivity.
    + cbn [_writer_task log]. exact Fs.
  - unfold _bh_stop_writer. unfold bind at 1, gets.
    rewrite Hwt. unfold _done, done. rewrite Hp. cbn [negb is_some orb].
    unfold bind at 1, ret.
    rewrite (cancel_and_wait_pending env WriterCoro s wt eq_refl Hwt Hp).
    destruct (finish_task_frame WriterCoro None (log (EvCancel WriterCoro) s))
      as (Fw & _ & Fo & Ft & _).
    pose proof (finish_task_state WriterCoro None
                  (log (EvCancel WriterCoro) s) wt eq_refl Hwt) as Fs.
    eexists. split; [reflexivity|].
    cbv zeta in *. simpl in Fs.
    split; [|split; [|split]].
    + cbn [trace log]. rewrite Ft. cbn [trace log]. now rewrite <- app_assoc.
    + cbn [_outgoing log]. now rewrite Fo.
    + cbn [_writer log]. now rewrite Fw.
    + cbn [_writer_task log]. exact Fs.
  - intros c s0. apply cancel_and_wait_returns.
  - intros env' s' H. now apply stop_writer_returned with wt wr.
Qed.

(** ** Closing the transport *)

Lemma exn_is_refl e : exn_is e e = true.
Proof.
  induction e as [i c|m e IH| |]; simpl; auto.
  - rewrite Nat.eqb_refl. now destruct c.
  - now rewrite String.eqb_refl, IH.
Qed.







(** ** Connecting *)

Lemma handler_failure_path env phase err s :
  (disconnect env ;;;
   if is_CancelledError err then raise err
   else if is_Exception err
        then raise (ConnectError (String.append "Failed to establish " phase) err)
        else raise err) s = failure_path env phase err s.
Proof.
  unfold bind, failure_path, surfaced.
  destruct (disconnect env s) as [s2 [[]| |]]; try reflexivity.
  destruct (is_CancelledError err), (is_Exception err); reflexivity.
Qed.

Lemma cleanup_ok_reset s s' :
  _cleanup s = (s', Ok tt) -> is_reset s' = true.
Proof.
  destruct s as [r w q [[? ? [|?]]|] [[? ? [|?]]|] [[? ? [|?]]|] [[? ? [|?]]|] n tr];
    cbv; intros H; inversion H; reflexivity.
Qed.

Lemma try_finally_ok {A} (body : M A) (fin : M unit) s s' a :
  try_finally body fin s = (s', Ok a) ->
  exists s1, fin s1 = (s', Ok tt).
Proof.
  unfold try_finally.
  destruct (body s) as [s1 [x|e|]]; try discriminate;
    destruct (fin s1) as [s2 [[]|e'|]] eqn:E; try discriminate;
    intros H; inversion H; subst; eauto.
Qed.

Lemma disconnect_ok_reset env s s' :
  disconnect env s = (s', Ok tt) -> is_reset s' = true.
Proof.
  unfold disconnect, bind at 1.
  destruct (_schedule_disconnect s) as [s1 [[]|e|]]; try discriminate.
  unfold _wait_disconnect, bind at 1, gets. unfold bind at 1.
  destruct (assert_ (is_some (_dc_task s1)) s1) as [s2 [[]|e|]];
    try discriminate.
  intros H. apply try_finally_ok in H. destruct H as [s3 H].
  now apply cleanup_ok_reset with s3.
Qed.

(** C2, as the code has it: whichever phase of the connect path
    raises [err], [disconnect] runs first, on the session as the
    failure left it.  If that disconnect returns, the session is reset
    and connect raises [err] wrapped in a [ConnectError] naming the
    phase, or [err] itself when it is a cancellation or not an
    [Exception].  If the disconnect itself raises, or never returns,
    that is the outcome of connect instead. *)
Theorem connect_failure_runs_disconnect_first
        (env : Env) (opened : result StreamWriter)
        (establish_session : M unit) (s : AsyncProtocol) :
  (forall s1 err,
     _establish_connection opened s = (s1, Raise err) ->
     connect env opened establish_session s =
       failure_path env "connection" err s1) /\
  (forall s1 s2 err,
     _establish_connection opened s = (s1, Ok tt) ->
     establish_session s1 = (s2, Raise err) ->
     connect env opened establish_session s =
       failure_path env "session" err s2) /\
  (forall phase err s1 s2,
     disconnect env s1 = (s2, Ok tt) ->
     failure_path env phase err s1 = (s2, Raise (surfaced phase err)) /\
     is_reset s2 = true /\
     (is_CancelledError err = false -> is_Exception err = true ->
      surfaced phase err =
        ConnectError (String.append "Failed to establish " phase) err) /\
     (is_CancelledError err = true \/ is_Exception err = false ->
      surfaced phase err = err)).
Proof.
  split; [|split].
  - intros s1 err H. unfold connect, _new_session. cbv zeta.
    unfold bind at 1, try_except at 1. rewrite H. cbv beta iota.
    rewrite handler_failure_path.
    unfold failure_path. destruct (disconnect env s1) as [s2 [[]| |]];
      reflexivity.
  - intros s1 s2 err H1 H2. unfold connect, _new_session. cbv zeta.
    unfold bind at 1, try_except at 1. rewrite H1.
    unfold try_except. rewrite H2. cbv beta iota.
    apply handler_failure_path.
  - intros phase err s1 s2 H. split; [|split; [|split]].
    + unfold failure_path. now rewrite H.
    + now apply disconnect_ok_reset with env s1.
    + intros Hc He. unfold surfaced. now rewrite Hc, He.
    + intros [Hc|He]; unfold surfaced.
      * now rewrite Hc.
      * rewrite He. now destruct (is_CancelledError err).
Qed.

(** * Further properties of the session machinery *)

(** ** Connecting and disconnecting an idle session *)

Lemma is_reset_fields s :
  is_reset s = true ->
  _reader s = None /\ _writer s = None /\ _reader_task s = None /\
  _writer_task s = None /\ _bh_tasks s = None /\ _dc_task s = None.
Proof.
  destruct s as [[r|] [w|] q [rt|] [wt|] [bh|] [dc|] n tr];
    cbv; intros H; try discriminate; auto 10.
Qed.

(** X1: a connect whose transport opens returns normally from any
    state of the session: the transport is stored, the queue is a new
    empty one, the reader task, the writer task and the join future
    are three new pending futures with consecutive ids, and neither
    the disconnect handle nor the cleanup is touched. *)
Theorem connect_success_starts_session
        (env : Env) (w : StreamWriter) (s : AsyncProtocol) :
  let s' := fst (connect env (Ok w) _establish_session s) in
  snd (connect env (Ok w) _establish_session s) = Ok tt /\
  _reader s' = Some tt /\ _writer s' = Some w /\
  _outgoing s' = empty_queue /\
  _reader_task s' = Some (mkFuture (next_id s) ReaderCoro Pending) /\
  _writer_task s' = Some (mkFuture (S (next_id s)) WriterCoro Pending) /\
  _bh_tasks s' = Some (mkFuture (S (S (next_id s))) GatherFuture Pending) /\
  _dc_task s' = _dc_task s /\
  next_id s' = 3 + next_id s /\
  trace s' = trace s ++ [EvOpenConnection;
                         EvCreateTask ReaderCoro (next_id s);
                         EvCreateTask WriterCoro (S (next_id s))].
Proof.
  destruct s as [r w0 q rt wt bh dc n tr]. cbv zeta.
  cbv - [app]. rewrite <- !app_assoc. repeat split; reflexivity.
Qed.

(** X2: on an idle session, a connect whose transport cannot be
    opened never reaches the session phase: it schedules the
    disconnect task, cleans up, and raises the root cause wrapped in a
    [ConnectError] for the connection phase (unwrapped when it is a
    cancellation or not an [Exception]); the session is idle again
    afterwards, whatever the surroundings do. *)
Theorem connect_refused_on_idle_session
        (env : Env) (err : exn) (establish_session : M unit)
        (s : AsyncProtocol) :
  is_reset s = true ->
  let s' := fst (connect env (Raise err) establish_session s) in
  snd (connect env (Raise err) establish_session s) =
    Raise (surfaced "connection" err) /\
  is_reset s' = true /\
  _outgoing s' = _outgoing s /\
  trace s' = trace s ++ [EvOpenConnection;
                         EvCreateTask DisconnectCoro (next_id s);
                         EvCleanup].
Proof.
  intros H. destruct (is_reset_fields s H) as (A & B & C & D & E & F).
  destruct s as [r w q rt wt bh dc n tr]. simpl in *. subst.
  cbv zeta.
  cbv - [app is_CancelledError is_Exception String.append].
  rewrite <- !app_assoc.
  destruct (is_CancelledError err), (is_Exception err);
    repeat split; reflexivity.
Qed.

(** X3: disconnecting an idle session is harmless: whatever the
    surroundings do, it creates the disconnect task, finds nothing to
    stop or close, cleans up and returns with the session idle and the
    queue as it was; no cancellation, join, flush or close is
    attempted. *)
Theorem disconnect_idle_session (env : Env) (s : AsyncProtocol) :
  is_reset s = true ->
  disconnect env s =
    (fst (disconnect env s), Ok tt) /\
  is_reset (fst (disconnect env s)) = true /\
  _outgoing (fst (disconnect env s)) = _outgoing s /\
  trace (fst (disconnect env s)) =
    trace s ++ [EvCreateTask DisconnectCoro (next_id s); EvCleanup].
Proof.
  intros H. destruct (is_reset_fields s H) as (A & B & C & D & E & F).
  destruct s as [r w q rt wt bh dc n tr]. simpl in *. subst.
  cbv - [app]. rewrite <- !app_assoc. repeat split; reflexivity.
Qed.

(** ** A graceful disconnect of a healthy session *)


Lemma bind_ok {A B} (m : M A) (k : A -> M B) s s1 a :
  m s = (s1, Ok a) -> bind m k s = k a s1.
Proof. intros H. unfold bind. now rewrite H. Qed.



(** ** A failing send *)

(** [run], keeping list appends folded. *)
Ltac run_app :=
  cbv - [exn_is is_Exception is_CancelledError wait_closed_result
         drain_result do_send closing Nat.eqb List.length app pred];
  repeat (progress cbn [is_CancelledError];
          cbv - [exn_is is_Exception is_CancelledError wait_closed_result
                 drain_result do_send closing Nat.eqb List.length app
                 pred]).

(** X5: the send of the head message [m] raises [F] while the
    session is healthy.  The writer loop marks [m] done, schedules the
    disconnect and dies with [F]; the teardown is then a forced one:
    nothing is joined or flushed, the reader is cancelled, and when
    closing succeeds or raises [F] again, [disconnect] raises [F] and
    leaves the session idle.  The messages behind [m] are never sent:
    they are still in the queue, unmarked. *)
Theorem send_fault_forces_teardown
        (env : Env) (s : AsyncProtocol) (rt wt g : Future)
        (wr : StreamWriter) (m : T) (rest : list T) (F : exn) (fuel : nat) :
  _reader_task s = Some rt -> fut_state_of rt = Pending ->
  _writer_task s = Some wt -> fut_state_of wt = Pending ->
  _bh_tasks s = Some g -> fut_state_of g = Pending ->
  _dc_task s = None -> _writer s = Some wr ->
  items (_outgoing s) = m :: rest ->
  do_send env m = Raised F -> is_CancelledError F = false ->
  wait_closed_result env = Returned \/ wait_closed_result env = Raised F ->
  let s1 := run_loop_task WriterCoro
              (_bh_send_message None (do_send env)) (S fuel) s in
  _exception (_writer_task s1) = Some F /\
  _exception (_bh_tasks s1) = Some F /\
  snd (disconnect env s1) = Raise F /\
  is_reset (fst (disconnect env s1)) = true /\
  _outgoing (fst (disconnect env s1)) =
    mkQueue rest (pred (unfinished_tasks (_outgoing s))) /\
  trace (fst (disconnect env s1)) =
    trace s ++
    [EvGet m; EvSend m; EvTaskDone;
     EvCreateTask DisconnectCoro (next_id s);
     EvCancel ReaderCoro; EvWait ReaderCoro] ++
    (if closing wr then [] else [EvClose]) ++
    [EvWaitClosed; EvCleanup].
Proof.
  intros Hrt Hrp Hwt Hwp Hg Hgp Hdc Hwr Hi Hm HF Hc.
  destruct s as [r w [it u] rt0 wt0 bh dc n tr]. simpl in *. subst.
  destruct rt as [ri rc rs], wt as [wi wc ws], g as [gi gc gs].
  simpl in *. subst.
  run_app. rewrite Hm. run_app. rewrite HF. run_app.
  destruct Hc as [Hc|Hc]; rewrite Hc; destruct (closing wr); run_app;
    try (destruct (is_Exception F); run_app); rewrite ?exn_is_refl; run_app;
    rewrite <- ?app_assoc; repeat split; reflexivity.
Qed.

(** ** A send that fails while the queue is being joined *)








(** ** A forced teardown always completes *)


(** ** What every disconnect guarantees *)

Lemma cleanup_erases_finished_dc s :
  quiesced (_dc_task s) = true ->
  _dc_task (fst (_cleanup s)) = None /\ snd (_cleanup s) <> Suspended.
Proof.
  destruct s as [r w q [[? ? [|?]]|] [[? ? [|?]]|] [[? ? [|?]]|] [[? ? [|?]]|] n tr];
    cbv; intros H; try discriminate H; split; try reflexivity; discriminate.
Qed.

Lemma await_future_frame c s :
  fst (await_future c s) = s /\
  (snd (await_future c s) <> Suspended -> quiesced (task_of c s) = true).
Proof.
  unfold await_future, bind, gets.
  destruct (task_of c s) as [[i k [|[e|]]]|]; simpl; split; try reflexivity;
    intros H; try reflexivity; now elim H.
Qed.

(** X17: for every state of the session and whatever the
    surroundings do: a [disconnect] that returns normally leaves the
    session idle, and a [disconnect] that returns or raises at all
    has emptied the disconnect handle, so that the next trigger
    schedules a new teardown. *)
Theorem disconnect_outcome (env : Env) (s : AsyncProtocol) :
  (snd (disconnect env s) = Ok tt ->
   is_reset (fst (disconnect env s)) = true) /\
  (snd (disconnect env s) <> Suspended ->
   _dc_task (fst (disconnect env s)) = None).
Proof.
  split.
  - intros H. apply disconnect_ok_reset with env s.
    destruct (disconnect env s) as [s' r]. simpl in H. now subst r.
  - destruct (disconnect env s) as [s' r] eqn:E. simpl. intros Hns.
    unfold disconnect, bind at 1 in E.
    destruct (schedule_disconnect_result s) as [Hr Hs].
    destruct (_schedule_disconnect s) as [s1 r1]. simpl in Hr, Hs. subst r1.
    unfold _wait_disconnect, bind at 1, gets in E. unfold bind at 1 in E.
    rewrite Hs in E. cbn [assert_ ret] in E.
    unfold try_finally in E. unfold bind at 1, modify in E.
    set (s2 := run_dc_task env s1) in E.
    unfold bind at 1 in E.
    destruct (await_future_frame DisconnectCoro s2) as [Hf Hq].
    destruct (await_future DisconnectCoro s2) as [s3 r3]. simpl in Hf, Hq.
    subst s3.
    destruct r3 as [[]|e|].
    + specialize (Hq ltac:(discriminate)).
      destruct (cleanup_erases_finished_dc s2 Hq) as [Hc Hn].
      unfold bind at 1, gets in E.
      destruct (_bh_tasks s2) as [g|].
      * destruct (await_future_frame GatherFuture s2) as [Hf2 _].
        destruct (await_future GatherFuture s2) as [s4 r4]. simpl in Hf2.
        subst s4.
        destruct r4 as [[]|e|]; destruct (_cleanup s2) as [s5 [[]|e5|]];
          simpl in *; inversion E; subst; try assumption; now elim Hns.
      * unfold ret in E. destruct (_cleanup s2) as [s5 [[]|e5|]];
          simpl in *; inversion E; subst; try assumption; now elim Hns.
    + specialize (Hq ltac:(discriminate)).
      destruct (cleanup_erases_finished_dc s2 Hq) as [Hc Hn].
      destruct (_cleanup s2) as [s5 [[]|e5|]];
        simpl in *; inversion E; subst; try assumption; now elim Hns.
    + inversion E; subst. now elim Hns.
Qed.

(** ** A flush that fails *)



(** ** Connect, send, disconnect *)



End Protocol.

(** ** Flushing the writer *)

(** C10: on a transport whose limits are in order, [flush] first sets
    the limits to [(0, 0)], drains under those, and then sets the
    limits it had read back, whether the drain returned or raised; the
    outcome of the drain is the outcome of [flush], and a drain that
    returned has emptied the buffer. *)
Theorem flush_restores_limits (o : awaited) (w : StreamWriter) :
  limit_low w <= limit_high w ->
  (exists w1 w2,
     set_write_buffer_limits 0 0 w = Some w1 /\
     get_write_buffer_limits w1 = (0, 0) /\
     drain o w1 = (w2, o) /\
     set_write_buffer_limits (limit_high w) (limit_low w) w2 =
       Some (fst (flush o w))) /\
  get_write_buffer_limits (fst (flush o w)) = get_write_buffer_limits w /\
  limits_log (fst (flush o w)) =
    limits_log w ++ [(0, 0); (limit_high w, limit_low w)] /\
  snd (flush o w) = o /\
  (o = Returned -> buffered (fst (flush o w)) = 0).
Proof.
  intros H. rewrite (flush_spec o w H). simpl.
  split; [|split; [|split; [|split]]]; try reflexivity.
  - apply Nat.leb_le in H.
    unfold set_write_buffer_limits, drain. simpl.
    destruct o; simpl; rewrite H; simpl; do 2 eexists;
      (split; [reflexivity|]); (split; [reflexivity|]);
      (split; [reflexivity|]); simpl; rewrite <- app_assoc;
      rewrite ?Nat.min_0_r; reflexivity.
  - intros ->. reflexivity.
Qed.

Lemma flush_restores_limits_witness :
  limit_low a_writer <= limit_high a_writer /\
  get_write_buffer_limits (fst (flush (Raised ValueError) a_writer)) = (16, 64).
Proof.
  assert (H : limit_low a_writer <= limit_high a_writer) by (simpl; lia).
  split; [exact H|].
  exact (proj1 (proj2 (flush_restores_limits (Raised ValueError) a_writer H))).
Defined.

(** ** The session on concrete runs *)

(** C1: what [connect] does on a session that is already running.
    The first connect leaves the session running; a second one, with
    no disconnect in between, does not raise: it opens a second
    connection and replaces the reader and writer tasks by new ones. *)
Theorem connect_on_running_session_reconnects :
  connect nat (quiet_env nat) (Ok a_writer) (_establish_session nat)
          (init nat) = (running_session nat, Ok tt) /\
  is_reset nat (running_session nat) = false /\
  snd (connect nat (quiet_env nat) (Ok a_writer) (_establish_session nat)
               (running_session nat)) = Ok tt /\
  trace nat (fst (connect nat (quiet_env nat) (Ok a_writer)
                          (_establish_session nat) (running_session nat))) =
    trace nat (running_session nat) ++
    [EvOpenConnection nat; EvCreateTask nat ReaderCoro 3;
     EvCreateTask nat WriterCoro 4] /\
  _reader_task nat (running_session nat) =
    Some (mkFuture 0 ReaderCoro Pending) /\
  _reader_task nat (fst (connect nat (quiet_env nat) (Ok a_writer)
                                 (_establish_session nat)
                                 (running_session nat))) =
    Some (mkFuture 3 ReaderCoro Pending).
Proof.
  repeat split; reflexivity.
Qed.

(** C3: a disconnect during which the flush of the writer raises.
    [_bh_disconnect] ends at the flush, before either loop task is
    cancelled; [_cleanup] does run, finds the reader task unfinished,
    and its assertion is what [disconnect] raises.  The reader and
    writer tasks, the join future and the transport are all still in
    place afterwards. *)
Theorem disconnect_after_failed_flush_not_reset :
  snd (disconnect nat (drain_fails_env nat) (running_session nat)) =
    Raise AssertionError /\
  is_reset nat (fst (disconnect nat (drain_fails_env nat)
                                (running_session nat))) = false /\
  _reader_task nat (fst (disconnect nat (drain_fails_env nat)
                                    (running_session nat))) =
    Some (mkFuture 0 ReaderCoro Pending) /\
  _writer_task nat (fst (disconnect nat (drain_fails_env nat)
                                    (running_session nat))) =
    Some (mkFuture 1 WriterCoro Pending) /\
  _bh_tasks nat (fst (disconnect nat (drain_fails_env nat)
                                 (running_session nat))) =
    Some (mkFuture 2 GatherFuture Pending) /\
  is_some (_writer nat (fst (disconnect nat (drain_fails_env nat)
                                        (running_session nat)))) = true /\
  trace nat (fst (disconnect nat (drain_fails_env nat)
                             (running_session nat))) =
    trace nat (running_session nat) ++
    [EvCreateTask nat DisconnectCoro 3; EvJoin nat; EvFlush nat;
     EvCleanup nat].
Proof.
  repeat split; reflexivity.
Qed.

(** C2 fails as stated: the session phase fails with the
    [Exception] [E] after the reader loop has died with [F]; the
    disconnect that connect runs first re-raises [F], and that is what
    connect raises, not a [ConnectError] around [E]. *)
Lemma connect_raises_loop_fault_unwrapped :
  let F := Exn 7 ExceptionClass in
  let E := Exn 3 ExceptionClass in
  let s1 := fst (_establish_connection nat (Ok a_writer) (init nat)) in
  snd (negotiating_session nat F E s1) = Raise E /\
  is_CancelledError E = false /\ is_Exception E = true /\
  snd (connect nat (quiet_env nat) (Ok a_writer)
               (negotiating_session nat F E) (init nat)) = Raise F /\
  snd (connect nat (quiet_env nat) (Ok a_writer)
               (negotiating_session nat F E) (init nat)) <>
    Raise (ConnectError "Failed to establish session" E).
Proof.
  cbv zeta. repeat split; try reflexivity. discriminate.
Qed.


(** ** The theorems at concrete sessions *)

Lemma schedule_disconnect_idempotent_witness :
  _dc_task nat (running_session nat) = None /\
  triggers nat 3 (running_session nat) =
    _schedule_disconnect nat (running_session nat) /\
  _dc_task nat (fst (triggers nat 3 (running_session nat))) =
    Some (mkFuture 3 DisconnectCoro Pending).
Proof.
  split; [reflexivity|].
  destruct (schedule_disconnect_idempotent nat (running_session nat) 2)
    as (H1 & _ & H3 & _ & H5).
  split; [exact H1|].
  rewrite H5. exact (H3 eq_refl).
Defined.

Lemma cleanup_erases_only_quiesced_witness :
  quiesced (_reader_task nat (running_session nat)) = false /\
  _reader_task nat (fst (_cleanup nat (running_session nat))) =
    _reader_task nat (running_session nat).
Proof.
  split; [reflexivity|].
  destruct (cleanup_erases_only_quiesced nat (running_session nat))
    as (_ & _ & _ & H & _).
  exact (H ReaderCoro eq_refl).
Defined.

Lemma send_message_marks_done_witness :
  let s := set_outgoing nat (mkQueue nat [4; 5] 2) (running_session nat) in
  items nat (_outgoing nat s) = [4; 5] /\
  exists s',
    _bh_send_message nat None (fun _ => Raised ValueError) s =
      (s', Raise ValueError) /\
    unfinished_tasks nat (_outgoing nat s') = 1.
Proof.
  cbv zeta. split; [reflexivity|].
  destruct (send_message_marks_done nat
              (set_outgoing nat (mkQueue nat [4; 5] 2) (running_session nat))
              4 [5] (fun _ => Raised ValueError) eq_refl)
    as ((s' & H1 & _ & _ & H4) & _).
  exists s'. split; [exact H1|exact H4].
Defined.

Lemma loop_termination_discipline_witness :
  let cancel := Exn 9 CancelledError in
  is_loop ReaderCoro = true /\
  while_true nat (raise nat cancel) 1 (running_session nat) =
    (running_session nat, Raise cancel) /\
  is_CancelledError cancel = true /\
  _bh_loop_forever nat (raise nat cancel) 1 (running_session nat) =
    (running_session nat, Ok tt).
Proof.
  cbv zeta. split; [reflexivity|]. split; [reflexivity|].
  split; [reflexivity|].
  destruct (loop_termination_discipline nat
              (raise nat (Exn 9 CancelledError)) 1 ReaderCoro
              (running_session nat) (running_session nat)
              (Exn 9 CancelledError) eq_refl eq_refl) as (H & _).
  exact (proj1 (H eq_refl)).
Defined.

Lemma stop_writer_graceful_then_cancel_witness :
  let s := set_outgoing nat (mkQueue nat [4; 5] 2) (running_session nat) in
  _writer_task nat s = Some (mkFuture 1 WriterCoro Pending) /\
  _writer nat s = Some a_writer /\
  limit_low a_writer <= limit_high a_writer /\
  unfinished_tasks nat (_outgoing nat s) =
    List.length (items nat (_outgoing nat s)) /\
  exists s',
    _bh_stop_writer nat (quiet_env nat) false s = (s', Ok tt) /\
    trace nat s' =
      trace nat s ++ [EvJoin nat] ++ send_events nat [4; 5] ++
      [EvFlush nat; EvCancel nat WriterCoro; EvWait nat WriterCoro].
Proof.
  cbv zeta. split; [reflexivity|]. split; [reflexivity|].
  assert (Hl : limit_low a_writer <= limit_high a_writer) by (simpl; lia).
  split; [exact Hl|]. split; [reflexivity|].
  destruct (stop_writer_graceful_then_cancel nat (quiet_env nat)
              (set_outgoing nat (mkQueue nat [4; 5] 2) (running_session nat))
              (mkFuture 1 WriterCoro Pending) a_writer
              eq_refl eq_refl eq_refl Hl eq_refl
              (fun m _ => eq_refl) eq_refl)
    as (_ & (s' & H1 & H2 & _) & _).
  exists s'. split; [exact H1|exact H2].
Defined.


Lemma connect_failure_runs_disconnect_first_witness :
  let E := Exn 3 ExceptionClass in
  _establish_connection nat (Raise E) (init nat) =
    (log nat (EvOpenConnection nat) (init nat), Raise E) /\
  snd (connect nat (quiet_env nat) (Raise E) (_establish_session nat)
               (init nat)) =
    Raise (ConnectError "Failed to establish connection" E) /\
  is_reset nat (fst (connect nat (quiet_env nat) (Raise E)
                             (_establish_session nat) (init nat))) = true.
Proof.
  cbv zeta.
  assert (H0 : _establish_connection nat (Raise (Exn 3 ExceptionClass))
                 (init nat) =
               (log nat (EvOpenConnection nat) (init nat),
                Raise (Exn 3 ExceptionClass))) by reflexivity.
  split; [exact H0|].
  destruct (connect_failure_runs_disconnect_first nat (quiet_env nat)
              (Raise (Exn 3 ExceptionClass)) (_establish_session nat)
              (init nat)) as (H1 & _ & H3).
  rewrite (H1 _ _ H0).
  destruct (H3 "connection"%string (Exn 3 ExceptionClass)
               (log nat (EvOpenConnection nat) (init nat))
               (fst (disconnect nat (quiet_env nat)
                       (log nat (EvOpenConnection nat) (init nat))))
               eq_refl) as (A & B & C & _).
  rewrite A. split; [|exact B].
  simpl. exact (f_equal Raise (C eq_refl eq_refl)).
Defined.

(** ** The further properties at concrete sessions *)

Lemma connect_refused_on_idle_session_witness :
  is_reset nat (init nat) = true /\
  snd (connect nat (quiet_env nat) (Raise ValueError)
               (_establish_session nat) (init nat)) =
    Raise (ConnectError "Failed to establish connection" ValueError).
Proof.
  split; [reflexivity|].
  exact (proj1 (connect_refused_on_idle_session nat (quiet_env nat)
                  ValueError (_establish_session nat) (init nat) eq_refl)).
Defined.

Lemma disconnect_idle_session_witness :
  is_reset nat (init nat) = true /\
  is_reset nat (fst (disconnect nat (drain_fails_env nat) (init nat))) = true.
Proof.
  split; [reflexivity|].
  exact (proj1 (proj2 (disconnect_idle_session nat (drain_fails_env nat)
                         (init nat) eq_refl))).
Defined.


Lemma send_fault_forces_teardown_witness :
  let F := Exn 8 ExceptionClass in
  let env := mkEnv nat (fun m => if Nat.eqb m 4 then Raised F else Returned)
                   Returned Returned 99 in
  let s := set_outgoing nat (mkQueue nat [4; 5] 2) (running_session nat) in
  let s1 := run_loop_task nat WriterCoro
              (_bh_send_message nat None (do_send nat env)) 1 s in
  items nat (_outgoing nat s) = [4; 5] /\
  do_send nat env 4 = Raised F /\
  snd (disconnect nat env s1) = Raise F /\
  _outgoing nat (fst (disconnect nat env s1)) = mkQueue nat [5] 1.
Proof.
  cbv zeta. split; [reflexivity|]. split; [reflexivity|].
  destruct (send_fault_forces_teardown nat
              (mkEnv nat (fun m => if Nat.eqb m 4
                                   then Raised (Exn 8 ExceptionClass)
                                   else Returned) Returned Returned 99)
              (set_outgoing nat (mkQueue nat [4; 5] 2) (running_session nat))
              (mkFuture 0 ReaderCoro Pending) (mkFuture 1 WriterCoro Pending)
              (mkFuture 2 GatherFuture Pending) a_writer 4 [5]
              (Exn 8 ExceptionClass) 0
              eq_refl eq_refl eq_refl eq_refl eq_refl eq_refl eq_refl
              eq_refl eq_refl eq_refl eq_refl (or_introl eq_refl))
    as (_ & _ & A & _ & B & _).
  split; [exact A|exact B].
Defined.



(** * Properties of the autodoc option switch *)

Module AutoconfFacts.
Import stdpp.base stdpp.gmap stdpp.strings.
Import Autoconf.

Lemma cached_change_same key v st :
  cached key (change_option key v st) =
    match cached key st with
    | Some x => Some x
    | None => Some (default DELETEME (options st !! key))
    end.
Proof.
  unfold cached, change_option. simpl. rewrite lookup_insert_eq. simpl.
  destruct (default ∅ (changed_options_cache st !! opt_id st) !! key)
    as [x|] eqn:E; [exact E|].
  destruct (options st !! key); simpl; now rewrite lookup_insert_eq.
Qed.

Lemma cached_change_other key k v st :
  k ≠ key -> cached k (change_option key v st) = cached k st.
Proof.
  intros Hk. unfold cached, change_option. simpl.
  rewrite lookup_insert_eq. simpl.
  destruct (default ∅ (changed_options_cache st !! opt_id st) !! key);
    [reflexivity|].
  destruct (options st !! key); now rewrite lookup_insert_ne.
Qed.

Lemma restore_cached key st :
  restore_option key st =
    match cached key st with
    | Some v =>
        mkState (changed_options_cache st) (opt_id st)
                (if is_DELETEME v then delete key (options st)
                 else <[key := v]> (options st))
    | None => st
    end.
Proof.
  unfold restore_option, cached.
  destruct (default ∅ (changed_options_cache st !! opt_id st) !! key)
    as [v|]; [|reflexivity].
  now destruct (is_DELETEME v).
Qed.

Lemma change_restore_round_trip_helper key v st :
  cached key st = None ->
  (forall x, options st !! key = Some x -> is_DELETEME x = false) ->
  options (restore_option key (change_option key v st)) = options st.
Proof.
  intros Hc Hm. rewrite restore_cached, cached_change_same, Hc.
  destruct (options st !! key) as [x|] eqn:E; simpl.
  - rewrite (Hm x eq_refl). simpl.
    rewrite insert_insert_eq. now apply insert_id.
  - rewrite delete_insert_eq. now apply delete_id.
Qed.

(** X8: a change followed by a restore gives back the options as they
    were, whether the key was present or absent before, provided the
    cache had no entry for it and the value it held was not the string
    the cache uses as its marker. *)
Theorem change_restore_round_trip (key : string) (v : pyvalue) (st : state) :
  cached key st = None ->
  (forall x, options st !! key = Some x -> is_DELETEME x = false) ->
  options (restore_option key (change_option key v st)) = options st.
Proof.
  intros Hc Hm. rewrite restore_cached, cached_change_same, Hc.
  destruct (options st !! key) as [x|] eqn:E; simpl.
  - rewrite (Hm x eq_refl). simpl.
    rewrite insert_insert_eq. now apply insert_id.
  - rewrite delete_insert_eq. now apply delete_id.
Qed.

(** X9: the cache keeps the first original: however many times the
    option is changed before it is restored, the restore gives back
    the options as they were before the first change. *)
Theorem repeated_change_restores_first_original
        (key : string) (vs : list pyvalue) (v : pyvalue) (st : state) :
  cached key st = None ->
  (forall x, options st !! key = Some x -> is_DELETEME x = false) ->
  options (restore_option key
             (foldl (fun s x => change_option key x s)
                    (change_option key v st) vs)) = options st.
Proof.
  intros Hc Hm.
  assert (Hgen : forall vs s,
             cached key s = Some (default DELETEME (options st !! key)) ->
             (forall k, k ≠ key -> options s !! k = options st !! k) ->
             options (restore_option key
                        (foldl (fun s x => change_option key x s) s vs)) =
               options st).
  { clear vs. induction vs as [|x vs IH]; intros s Hs Hk; simpl.
    - rewrite restore_cached, Hs. simpl. apply map_eq. intros k.
      destruct (decide (k = key)) as [->|Hne].
      + destruct (options st !! key) as [y|] eqn:E; simpl.
        * rewrite (Hm y eq_refl). now rewrite lookup_insert_eq.
        * now rewrite lookup_delete_eq.
      + destruct (is_DELETEME _).
        * rewrite lookup_delete_ne by congruence. now apply Hk.
        * rewrite lookup_insert_ne by congruence. now apply Hk.
    - apply IH.
      + now rewrite cached_change_same, Hs.
      + intros k Hne. simpl. rewrite lookup_insert_ne by congruence.
        now apply Hk. }
  apply Hgen.
  - now rewrite cached_change_same, Hc.
  - intros k Hne. simpl. now rewrite lookup_insert_ne by congruence.
Qed.

(** X10: the marker is taken at face value.  When the option held
    the string ["__DELETEME__"] before the change, the restore does
    not put it back: it removes the key. *)
Theorem restore_drops_marker_valued_option
        (key : string) (v : pyvalue) (st : state) :
  cached key st = None ->
  options st !! key = Some DELETEME ->
  options (restore_option key (change_option key v st)) =
    delete key (options st) /\
  options (restore_option key (change_option key v st)) !! key = None.
Proof.
  intros Hc Hm. rewrite restore_cached, cached_change_same, Hc, Hm. simpl.
  rewrite delete_insert_eq. split; [reflexivity|apply lookup_delete_eq].
Qed.

Lemma restore_no_entry key st :
  cached key st = None -> restore_option key st = st.
Proof. intros Hc. now rewrite restore_cached, Hc. Qed.

(** X11: a restore leaves the cache as it is, does nothing at all
    when the cache has no entry for the key, and is idempotent. *)
Theorem restore_option_idempotent (key : string) (st : state) :
  changed_options_cache (restore_option key st) = changed_options_cache st /\
  (cached key st = None -> restore_option key st = st) /\
  restore_option key (restore_option key st) = restore_option key st.
Proof.
  assert (Hcc : forall s, changed_options_cache (restore_option key s) =
                          changed_options_cache s /\
                          opt_id (restore_option key s) = opt_id s).
  { intros s. rewrite restore_cached. now destruct (cached key s). }
  split; [apply Hcc|]. split.
  - intros Hc. now rewrite restore_cached, Hc.
  - rewrite (restore_cached key (restore_option key st)).
    assert (Hk : cached key (restore_option key st) = cached key st).
    { unfold cached. destruct (Hcc st) as [-> ->]. reflexivity. }
    rewrite Hk. rewrite (restore_cached key st).
    destruct (cached key st) as [x|] eqn:E; [|reflexivity].
    simpl. f_equal. destruct (is_DELETEME x).
    + now rewrite delete_delete_eq.
    + now rewrite insert_insert_eq.
Qed.

(** X12: the cache entry outlives the restore.  After one change and
    restore, a value the user gives the option later is not kept by
    the next change and restore: the option goes back to what it was
    before the very first change. *)
Theorem stale_cache_overrides_later_value
        (key : string) (v v' u : pyvalue) (st : state) :
  cached key st = None ->
  (forall x, options st !! key = Some x -> is_DELETEME x = false) ->
  let st2 := restore_option key (change_option key v st) in
  let st3 := mkState (changed_options_cache st2) (opt_id st2)
                     (<[key := u]> (options st2)) in
  options (restore_option key (change_option key v' st3)) !! key =
    options st !! key.
Proof.
  intros Hc Hm st2 st3.
  assert (H2 : cached key st2 =
               Some (default DELETEME (options st !! key))).
  { unfold st2. rewrite restore_cached, cached_change_same, Hc.
    unfold cached. simpl. rewrite lookup_insert_eq. simpl.
    unfold cached in Hc. rewrite Hc.
    destruct (options st !! key); simpl; now rewrite lookup_insert_eq. }
  assert (H3 : cached key st3 = cached key st2) by reflexivity.
  rewrite restore_cached, cached_change_same, H3, H2.
  destruct (options st !! key) as [x|] eqn:E; simpl.
  - rewrite (Hm x eq_refl). now rewrite lookup_insert_eq.
  - now rewrite lookup_delete_eq.
Qed.

(** X13: neither function touches another key of the options, and a
    change leaves the cache of every other options object alone. *)
Theorem other_keys_and_objects_untouched
        (key k : string) (v : pyvalue) (st : state) (other : nat) :
  k ≠ key -> other ≠ opt_id st ->
  options (change_option key v st) !! k = options st !! k /\
  options (restore_option key st) !! k = options st !! k /\
  cached k (change_option key v st) = cached k st /\
  changed_options_cache (change_option key v st) !! other =
    changed_options_cache st !! other.
Proof.
  intros Hk Ho. split; [|split; [|split]].
  - simpl. now rewrite lookup_insert_ne by congruence.
  - rewrite restore_cached. destruct (cached key st) as [x|]; [|reflexivity].
    simpl. destruct (is_DELETEME x).
    + now rewrite lookup_delete_ne by congruence.
    + now rewrite lookup_insert_ne by congruence.
  - now apply cached_change_other.
  - simpl. now rewrite lookup_insert_ne by congruence.
Qed.

Lemma fresh_cached k st :
  changed_options_cache st !! opt_id st = None -> cached k st = None.
Proof. intros H. unfold cached. rewrite H. apply lookup_empty. Qed.

Lemma client_not_member name :
  is_client name = true -> is_client_member name = false.
Proof.
  unfold is_client. intros H. apply orb_true_iff in H.
  destruct H as [H|H]; apply String.eqb_eq in H; subst; reflexivity.
Qed.

(** X14: a docstring that belongs neither to the class nor to one of
    its members leaves an options object the switch has never changed
    exactly as it is, and the cache too. *)
Theorem unrelated_docstring_is_untouched
        (what name : string) (obj : pyobj) (st : state) :
  changed_options_cache st !! opt_id st = None ->
  is_client name = false -> is_client_member name = false ->
  autodoc_process_docstring what name obj st = st.
Proof.
  intros Hf Hc Hm. unfold autodoc_process_docstring.
  unfold is_client in Hc. unfold is_client_member in Hm.
  rewrite Hc, Hm. simpl.
  rewrite (restore_no_entry "inherited-members" st (fresh_cached _ _ Hf)).
  now rewrite (restore_no_entry "noindex" st (fresh_cached _ _ Hf)).
Qed.

(** X15: the switch does not leak.  On an options object it has
    never changed, the docstring of the class turns on
    [inherited-members]; the next docstring that belongs neither to
    the class nor to its members puts the options back exactly as
    they were before. *)
Theorem class_then_unrelated_docstring_round_trip
        (what1 name1 what2 name2 : string) (obj1 obj2 : pyobj) (st : state) :
  changed_options_cache st !! opt_id st = None ->
  (forall x, options st !! "inherited-members" = Some x ->
             is_DELETEME x = false) ->
  is_client name1 = true ->
  is_client name2 = false -> is_client_member name2 = false ->
  options (autodoc_process_docstring what1 name1 obj1 st)
    !! "inherited-members" = Some PyTrue /\
  options (autodoc_process_docstring what2 name2 obj2
             (autodoc_process_docstring what1 name1 obj1 st)) = options st.
Proof.
  intros Hf Hm H1 H2 H3.
  pose proof (client_not_member name1 H1) as H1m.
  assert (E1 : autodoc_process_docstring what1 name1 obj1 st =
               change_option "inherited-members" PyTrue st).
  { unfold autodoc_process_docstring.
    unfold is_client in H1. unfold is_client_member in H1m.
    rewrite H1, H1m. simpl.
    apply restore_no_entry.
    rewrite cached_change_other by discriminate.
    now apply fresh_cached. }
  rewrite E1. split; [simpl; apply lookup_insert_eq|].
  unfold autodoc_process_docstring.
  unfold is_client in H2. unfold is_client_member in H3.
  rewrite H2, H3. simpl.
  rewrite (restore_no_entry "noindex").
  - apply change_restore_round_trip_helper; [now apply fresh_cached|exact Hm].
  - rewrite restore_cached, cached_change_same.
    rewrite (fresh_cached "inherited-members" st Hf).
    assert (Hn : cached "noindex"
                   (change_option "inherited-members" PyTrue st) = None).
    { rewrite cached_change_other by discriminate. now apply fresh_cached. }
    exact Hn.
Qed.

(** X16: a method, function, class or exception reached through the
    class but living in a module whose name does not start the
    documented name is taken off the index: [noindex] is turned on,
    and [inherited-members], which only the class itself gets, holds
    whatever the cache restores, the options' own value when the
    switch never changed them. *)
Theorem foreign_member_gets_noindex
        (what name m : string) (obj : pyobj) (st : state) :
  changed_options_cache st !! opt_id st = None ->
  is_client name = false -> is_client_member name = true ->
  (what = "class" \/ what = "exception" \/ what = "function" \/
   what = "method")%string ->
  obj_module obj = Some m -> startswith name m = false ->
  autodoc_process_docstring what name obj st =
    change_option "noindex" PyTrue st /\
  options (autodoc_process_docstring what name obj st) !! "noindex" =
    Some PyTrue /\
  options (autodoc_process_docstring what name obj st)
    !! "inherited-members" = options st !! "inherited-members".
Proof.
  intros Hf Hc Hm Hw Ho Hs.
  assert (E : autodoc_process_docstring what name obj st =
              change_option "noindex" PyTrue st).
  { unfold autodoc_process_docstring.
    unfold is_client in Hc. unfold is_client_member in Hm.
    rewrite Hc, Hm. simpl.
    rewrite (restore_no_entry "inherited-members" st (fresh_cached _ _ Hf)).
    rewrite Ho, Hs. simpl.
    destruct Hw as [ -> | [ -> | [ -> | -> ]]]; reflexivity. }
  rewrite E. split; [reflexivity|]. split.
  - simpl. apply lookup_insert_eq.
  - simpl. now rewrite lookup_insert_ne by discriminate.
Qed.

(** ** The switch on concrete options *)

Lemma fresh_options_no_marker key x :
  options fresh_options !! key = Some x -> is_DELETEME x = false.
Proof.
  unfold fresh_options. simpl. intros H.
  apply lookup_insert_Some in H. destruct H as [[_ <-]|[_ H]]; [reflexivity|].
  apply lookup_insert_Some in H. destruct H as [[_ <-]|[_ H]]; [reflexivity|].
  now rewrite lookup_empty in H.
Defined.

Lemma change_restore_round_trip_witness :
  cached "noindex" fresh_options = None /\
  options (restore_option "noindex"
             (change_option "noindex" PyTrue fresh_options)) =
    options fresh_options.
Proof.
  split; [reflexivity|].
  exact (change_restore_round_trip "noindex" PyTrue fresh_options eq_refl
           (fresh_options_no_marker "noindex")).
Defined.

Lemma repeated_change_restores_first_original_witness :
  cached "inherited-members" fresh_options = None /\
  options (restore_option "inherited-members"
             (change_option "inherited-members" (PyOther 3)
                (change_option "inherited-members" (PyOther 2)
                   (change_option "inherited-members" PyTrue
                      fresh_options)))) = options fresh_options.
Proof.
  split; [reflexivity|].
  exact (repeated_change_restores_first_original "inherited-members"
           [PyOther 2; PyOther 3] PyTrue fresh_options eq_refl
           (fresh_options_no_marker "inherited-members")).
Defined.

Lemma restore_drops_marker_valued_option_witness :
  cached "inherited-members" marker_options = None /\
  options marker_options !! "inherited-members" = Some DELETEME /\
  options (restore_option "inherited-members"
             (change_option "inherited-members" PyTrue marker_options))
    !! "inherited-members" = None.
Proof.
  split; [reflexivity|]. split; [reflexivity|].
  exact (proj2 (restore_drops_marker_valued_option "inherited-members" PyTrue
                  marker_options eq_refl eq_refl)).
Defined.

Lemma restore_option_idempotent_witness :
  cached "noindex" fresh_options = None /\
  restore_option "noindex" fresh_options = fresh_options.
Proof.
  split; [reflexivity|].
  exact (proj1 (proj2 (restore_option_idempotent "noindex" fresh_options))
           eq_refl).
Defined.

Lemma stale_cache_overrides_later_value_witness :
  let st2 := restore_option "noindex"
               (change_option "noindex" PyTrue fresh_options) in
  let st3 := mkState (changed_options_cache st2) (opt_id st2)
                     (<["noindex" := PyOther 9]> (options st2)) in
  cached "noindex" fresh_options = None /\
  options (restore_option "noindex" (change_option "noindex" PyTrue st3))
    !! "noindex" = options fresh_options !! "noindex".
Proof.
  split; [reflexivity|].
  exact (stale_cache_overrides_later_value "noindex" PyTrue PyTrue
           (PyOther 9) fresh_options eq_refl
           (fresh_options_no_marker "noindex")).
Defined.

Lemma other_keys_and_objects_untouched_witness :
  "members" ≠ "noindex" /\ 8 ≠ opt_id fresh_options /\
  options (change_option "noindex" PyTrue fresh_options) !! "members" =
    options fresh_options !! "members".
Proof.
  assert (H1 : "members" ≠ "noindex") by discriminate.
  assert (H2 : 8 ≠ opt_id fresh_options) by discriminate.
  split; [exact H1|]. split; [exact H2|].
  exact (proj1 (other_keys_and_objects_untouched "noindex" "members" PyTrue
                  fresh_options 8 H1 H2)).
Defined.

Lemma unrelated_docstring_is_untouched_witness :
  changed_options_cache fresh_options !! opt_id fresh_options = None /\
  is_client "qemu.machine.QEMUMachine" = false /\
  is_client_member "qemu.machine.QEMUMachine" = false /\
  autodoc_process_docstring "class" "qemu.machine.QEMUMachine"
                            protocol_method fresh_options = fresh_options.
Proof.
  split; [reflexivity|]. split; [reflexivity|]. split; [reflexivity|].
  exact (unrelated_docstring_is_untouched "class" "qemu.machine.QEMUMachine"
           protocol_method fresh_options eq_refl eq_refl eq_refl).
Defined.

Lemma class_then_unrelated_docstring_round_trip_witness :
  is_client "qemu.aqmp.QMPClient" = true /\
  is_client "qemu.aqmp.error" = false /\
  options (autodoc_process_docstring "module" "qemu.aqmp.error"
             protocol_method
             (autodoc_process_docstring "class" "qemu.aqmp.QMPClient"
                protocol_method fresh_options)) = options fresh_options.
Proof.
  split; [reflexivity|]. split; [reflexivity|].
  exact (proj2 (class_then_unrelated_docstring_round_trip
                  "class" "qemu.aqmp.QMPClient" "module" "qemu.aqmp.error"
                  protocol_method protocol_method fresh_options eq_refl
                  (fresh_options_no_marker "inherited-members")
                  eq_refl eq_refl eq_refl)).
Defined.

Lemma foreign_member_gets_noindex_witness :
  is_client_member "qemu.aqmp.QMPClient.connect" = true /\
  obj_module protocol_method = Some "qemu.aqmp.protocol" /\
  startswith "qemu.aqmp.QMPClient.connect" "qemu.aqmp.protocol" = false /\
  options (autodoc_process_docstring "method" "qemu.aqmp.QMPClient.connect"
             protocol_method fresh_options) !! "noindex" = Some PyTrue.
Proof.
  split; [reflexivity|]. split; [reflexivity|]. split; [reflexivity|].
  exact (proj1 (proj2 (foreign_member_gets_noindex
                  "method" "qemu.aqmp.QMPClient.connect" "qemu.aqmp.protocol"
                  protocol_method fresh_options eq_refl eq_refl eq_refl
                  (or_intror (or_intror (or_intror eq_refl)))
                  eq_refl eq_refl))).
Defined.

End AutoconfFacts.

(** * Properties of the debugging helpers *)

Module UtilFacts.
Import Util.

Lemma split_one_line s : one_line s = true -> split_nl s = [s].
Proof.
  induction s as [|c s IH]; simpl; [reflexivity|].
  intros H. apply andb_true_iff in H. destruct H as [Hc Hs].
  apply negb_true_iff in Hc. rewrite Hc, (IH Hs). reflexivity.
Qed.

Lemma split_line_then x rest :
  one_line x = true ->
  split_nl (String.append x (String nl rest)) = x :: split_nl rest.
Proof.
  induction x as [|c x IH]; simpl.
  - intros _. reflexivity.
  - intros H. apply andb_true_iff in H. destruct H as [Hc Hs].
    apply negb_true_iff in Hc. rewrite Hc, (IH Hs). reflexivity.
Qed.

Lemma join_nl_cons x y l :
  join_nl (x :: y :: l) =
  String.append x (String nl (join_nl (y :: l))).
Proof. reflexivity. Qed.

Lemma split_join lines last :
  forallb one_line lines = true -> one_line last = true ->
  split_nl (join_nl (lines ++ [last])) = lines ++ [last].
Proof.
  induction lines as [|x lines IH]; simpl; intros Hl Hlast.
  - now apply split_one_line.
  - apply andb_true_iff in Hl. destruct Hl as [Hx Hl].
    destruct (lines ++ [last]) as [|y l] eqn:E.
    + destruct lines; discriminate.
    + rewrite join_nl_cons, (split_line_then _ _ Hx).
      f_equal. rewrite <- E in *. now apply IH.
Qed.

(** X18: [pretty_traceback] on a traceback made of the lines [lines],
    each ended by a line feed, followed by the text [last] (neither
    containing a line feed): every line of [lines] comes back with
    the prefix in front, joined by line feeds, with no line feed at
    the end; [last] is dropped, whether it is empty, as after a
    complete traceback, or not.  A traceback without any line feed
    gives the empty string. *)
Theorem pretty_traceback_prefixes_lines
        (lines : list string) (last prefix : string) :
  forallb one_line lines = true -> one_line last = true ->
  pretty_traceback (join_nl (lines ++ [last])) prefix =
    join_nl (map (String.append prefix) lines).
Proof.
  intros Hl Hlast. unfold pretty_traceback.
  rewrite (split_join lines last Hl Hlast).
  rewrite map_app. simpl. now rewrite removelast_last.
Qed.

Lemma pretty_traceback_prefixes_lines_witness :
  forallb one_line ["Traceback"; "  File x"]%string = true /\
  pretty_traceback
    (join_nl (["Traceback"; "  File x"] ++ ["tail"]))%string "| " =
    join_nl ["| Traceback"; "|   File x"]%string.
Proof.
  split; [reflexivity|].
  exact (pretty_traceback_prefixes_lines
           ["Traceback"; "  File x"]%string "tail" "| " eq_refl eq_refl).
Defined.

Lemma walk_chain fs inner :
  stops inner = true ->
  match await_chain fs inner with
  | Some o => walk o
  | None => ([], false)
  end = (map (fun f => (f, f_lineno f)) fs, false).
Proof.
  intros Hs. induction fs as [|f fs IH]; simpl.
  - destruct inner as [[g y|[fr|] a|c|]|]; simpl in *;
      try discriminate; reflexivity.
  - now rewrite IH.
Qed.

(** X19: the await trace of nested coroutines.  For coroutines with
    the open frames [f :: fs], each awaiting the next, the innermost
    one awaiting nothing, a closed coroutine, a task or some other
    object, [walk_awaitable] yields exactly those frames with their
    line numbers, outermost first, nothing of what the innermost one
    awaits, and ends without an error; it does the same when the
    outermost coroutine is handed over wrapped in its task. *)
Theorem walk_awaitable_lists_open_frames
        (f : frame) (fs : list frame) (inner : option pyobject) :
  stops inner = true ->
  walk_awaitable (await_chain (f :: fs) inner) =
    (map (fun x => (x, f_lineno x)) (f :: fs), false) /\
  walk_awaitable
    (Some (TaskObj (CoroutineObj (Some f) (await_chain fs inner)))) =
    (map (fun x => (x, f_lineno x)) (f :: fs), false).
Proof.
  intros Hs. pose proof (walk_chain fs inner Hs) as H.
  simpl. rewrite H. split; reflexivity.
Qed.

Lemma walk_awaitable_lists_open_frames_witness :
  stops (Some (TaskObj OtherObj)) = true /\
  walk_awaitable
    (await_chain [mkFrame 1 10; mkFrame 2 20] (Some (TaskObj OtherObj))) =
    ([(mkFrame 1 10, 10); (mkFrame 2 20, 20)], false).
Proof.
  split; [reflexivity|].
  exact (proj1 (walk_awaitable_lists_open_frames
                  (mkFrame 1 10) [mkFrame 2 20] (Some (TaskObj OtherObj))
                  eq_refl)).
Defined.

End UtilFacts.

(** * Properties of the event calls *)

Module SyncQMPFacts.
Import SyncQMP.

Section Events.
Variable Msg : Type.
Variable events_get : option nat -> list Msg -> list Msg * result Msg.

Lemma drain_events_all (q : list Msg) :
  forall fuel acc,
    List.length q < fuel ->
    drain_events Msg fuel q acc = ([], acc ++ q).
Proof.
  induction q as [|m q IH]; intros fuel acc Hf.
  - destruct fuel; [inversion Hf|]. simpl. now rewrite app_nil_r.
  - destruct fuel; [inversion Hf|]. simpl in *.
    rewrite IH by lia. now rewrite <- app_assoc.
Qed.

(** X20: with events queued, [get_events] returns all of them, in
    queue order, leaves the queue empty, and never waits for a
    further event, whatever [wait] says. *)
Theorem get_events_drains_queue (wait : wait_arg) (q : list Msg) :
  q <> [] ->
  get_events Msg events_get wait q = ([], Ok q).
Proof.
  intros Hq. unfold get_events.
  rewrite drain_events_all by lia. simpl.
  destruct q; [now elim Hq|reflexivity].
Qed.

(** X21: with no event queued, [get_events] and [pull_event] do not
    wait when [wait] is [False]: they return the empty list and
    [None].  For every other [wait], a float of zero included, they
    wait for the next event: without a timeout when [wait] is [True],
    with the float as timeout otherwise; [get_events] returns that
    one event, or raises what the wait raised. *)
Theorem empty_queue_waits_unless_false (wait : wait_arg) :
  get_events Msg events_get (WaitBool false) [] = ([], Ok []) /\
  pull_event Msg events_get (WaitBool false) [] = ([], Ok None) /\
  (wait <> WaitBool false ->
   let timeout := match wait with
                  | WaitFloat t => Some t
                  | WaitBool _ => None
                  end in
   get_events Msg events_get wait [] =
     match events_get timeout [] with
     | (q', Ok m) => (q', Ok [m])
     | (q', Raise e) => (q', Raise e)
     | (q', Suspended) => (q', Suspended)
     end).
Proof.
  split; [reflexivity|]. split; [reflexivity|].
  intros Hw. unfold get_events. simpl.
  destruct wait as [[|]|t]; simpl.
  - destruct (events_get None []) as [q' [m|e|]]; reflexivity.
  - now elim Hw.
  - destruct (events_get (Some t) []) as [q' [m|e|]]; reflexivity.
Qed.

End Events.

Lemma get_events_drains_queue_witness :
  [3; 4] <> [] /\
  get_events nat (fun _ q => (q, Suspended)) (WaitBool true) [3; 4] =
    ([], Ok [3; 4]).
Proof.
  assert (H : [3; 4] <> []) by discriminate.
  split; [exact H|].
  exact (get_events_drains_queue nat (fun _ q => (q, Suspended))
           (WaitBool true) [3; 4] H).
Defined.

Lemma empty_queue_waits_unless_false_witness :
  WaitFloat 0 <> WaitBool false /\
  get_events nat (fun t q => (q, Raise (Exn 1 ExceptionClass)))
             (WaitFloat 0) [] = ([], Raise (Exn 1 ExceptionClass)).
Proof.
  assert (H : WaitFloat 0 <> WaitBool false) by discriminate.
  split; [exact H|].
  exact (proj2 (proj2 (empty_queue_waits_unless_false nat
                         (fun t q => (q, Raise (Exn 1 ExceptionClass)))
                         (WaitFloat 0))) H).
Defined.

End SyncQMPFacts.

(** * The disconnect guarantees at concrete sessions *)

Lemma disconnect_outcome_witness :
  snd (disconnect nat (drain_fails_env nat) (running_session nat)) <>
    Suspended /\
  _dc_task nat (fst (disconnect nat (drain_fails_env nat)
                                (running_session nat))) = None.
Proof.
  assert (H : snd (disconnect nat (drain_fails_env nat)
                              (running_session nat)) <> Suspended)
    by discriminate.
  split; [exact H|].
  exact (proj2 (disconnect_outcome nat (drain_fails_env nat)
                  (running_session nat)) H).
Defined.


